(** * Cursor token refresh: a shallow embedding and its properties

    The development embeds two Python modules:

    - [cursor_token_refresh.py], class [CursorTokenManager]: the token
      lifecycle ([get_current_tokens], [refresh_access_token],
      [update_token_in_db], [check_token_expiry], [refresh_if_needed]);
    - [jwt_decoder.py], [JWTAnalyzer.decode_jwt_payload] and
      [JWTAnalyzer.analyze_token_expiry].

    Python objects are modelled by the inductive [pyobj]; the standard
    library calls the source relies on ([json.loads], [json.dumps],
    [base64.urlsafe_b64decode], [str.split], [datetime]) are modelled by
    executable functions; the effects of the manager (the SQLite table,
    the wall clock, the HTTP endpoint, the log) are threaded through a
    state-and-exception monad. *)

From Stdlib Require Import ZArith List String Ascii Bool Lia.
From Stdlib Require Import DecimalString.
From Stdlib Require DecimalFacts DecimalPos.
Import ListNotations.

Set Warnings "-register-all".

Local Open Scope string_scope.
Local Open Scope Z_scope.

(** ** Python objects *)

Module Py.

(** Exception classes raised by the modelled code.  All of them derive
    from [Exception]; [JSONDecodeError], [UnicodeDecodeError] and
    [BinasciiError] derive from [ValueError]. *)
Inductive exn : Type :=
| TypeError
| ValueError
| OverflowError
| AttributeError
| JSONDecodeError
| UnicodeDecodeError
| BinasciiError
| OperationalError
| RequestException.

(** Result of an evaluation that may raise. *)
Inductive res (A : Type) : Type :=
| Ret (a : A)
| Raise (e : exn).
Arguments Ret {A} a.
Arguments Raise {A} e.

(** [except json.JSONDecodeError] catches exactly that class. *)
Definition is_JSONDecodeError (e : exn) : bool :=
  match e with JSONDecodeError => true | _ => false end.

(** A Python [float] is modelled by the decimal number [m * 10^e] it was
    read from, plus the three special values [json.loads] accepts.  Binary
    rounding is not modelled. *)
Inductive pyfloat : Type :=
| FNan
| FInf (negative : bool)
| FDec (m e : Z).

(** The objects [json.loads] produces: [None], [bool], [int], [float],
    [str], [list] and [dict].  A [str] is held as its UTF-8 encoding; a
    [dict] as an association list in insertion order with unique keys. *)
Inductive pyobj : Type :=
| PNone
| PBool (b : bool)
| PInt (n : Z)
| PFloat (f : pyfloat)
| PStr (s : string)
| PList (l : list pyobj)
| PDict (d : list (string * pyobj)).

Definition dict : Type := list (string * pyobj).

(** [bool(v)]: truthiness, used by [if v], [not v] and [x if v else y]. *)
Definition truthy (v : pyobj) : bool :=
  match v with
  | PNone => false
  | PBool b => b
  | PInt n => negb (n =? 0)
  | PFloat (FDec m _) => negb (m =? 0)
  | PFloat _ => true
  | PStr s => negb (s =? EmptyString)%string
  | PList l => match l with [] => false | _ :: _ => true end
  | PDict d => match d with [] => false | _ :: _ => true end
  end.

(** [k in d] and [d[k]] for a key that is present. *)
Fixpoint dict_get {A : Type} (k : string) (d : list (string * A)) : option A :=
  match d with
  | [] => None
  | (k', v) :: rest => if (k' =? k)%string then Some v else dict_get k rest
  end.

Definition dict_has {A : Type} (k : string) (d : list (string * A)) : bool :=
  match dict_get k d with Some _ => true | None => false end.

(** [d[k] = v]: replaces the value in place when the key exists, appends
    the pair otherwise. *)
Fixpoint dict_set {A : Type} (k : string) (v : A) (d : list (string * A))
  : list (string * A) :=
  match d with
  | [] => [(k, v)]
  | (k', v') :: rest =>
      if (k' =? k)%string then (k', v) :: rest else (k', v') :: dict_set k v rest
  end.

(** [d.get(k, default)] *)
Definition dict_get_default (k : string) (default : pyobj) (d : dict) : pyobj :=
  match dict_get k d with Some v => v | None => default end.

(** *** Strings

    [len(s)] counts code points, that is the bytes of the UTF-8 encoding
    that are not continuation bytes; [s[:n]] keeps the first [n] code
    points. *)
Definition is_continuation (c : ascii) : bool :=
  let n := Z.of_nat (nat_of_ascii c) in (128 <=? n) && (n <? 192).

Fixpoint py_len (s : string) : Z :=
  match s with
  | EmptyString => 0
  | String c rest => (if is_continuation c then 0 else 1) + py_len rest
  end.

Fixpoint py_take (n : nat) (s : string) : string :=
  match s with
  | EmptyString => EmptyString
  | String c rest =>
      if is_continuation c then String c (py_take n rest)
      else match n with
           | O => EmptyString
           | S n' => String c (py_take n' rest)
           end
  end.

(** [c * n] for a one-character string [c]. *)
Fixpoint str_repeat (c : ascii) (n : nat) : string :=
  match n with
  | O => EmptyString
  | S n' => String c (str_repeat c n')
  end.

(** [s.split(sep)] for a one-character separator: always at least one
    part. *)
Fixpoint split_aux (sep : ascii) (s : string) (cur : string) : list string :=
  match s with
  | EmptyString => [cur]
  | String c rest =>
      if Ascii.eqb c sep then cur :: split_aux sep rest EmptyString
      else split_aux sep rest (cur ++ String c EmptyString)
  end.

Definition split (sep : ascii) (s : string) : list string :=
  split_aux sep s EmptyString.

End Py.
Export Py.

(** ** The [json] module *)

Module Json.

Definition dquote : ascii := "034"%char.
Definition backslash : ascii := "092"%char.

Definition code (c : ascii) : Z := Z.of_nat (nat_of_ascii c).
Definition chr (n : Z) : ascii := ascii_of_nat (Z.to_nat n).

Definition is_digit (c : ascii) : bool := (48 <=? code c) && (code c <=? 57).

(** The scanner's whitespace: space, tab, line feed, carriage return. *)
Definition is_ws (c : ascii) : bool :=
  let n := code c in (n =? 32) || (n =? 9) || (n =? 10) || (n =? 13).

Fixpoint skip_ws (s : string) : string :=
  match s with
  | String c rest => if is_ws c then skip_ws rest else s
  | EmptyString => s
  end.

(** [s[idx:idx+len(p)] == p]: the rest of [s] after the prefix [p]. *)
Fixpoint strip_prefix (p s : string) : option string :=
  match p, s with
  | EmptyString, _ => Some s
  | String a p', String b s' => if Ascii.eqb a b then strip_prefix p' s' else None
  | String _ _, EmptyString => None
  end.

(** A maximal run of decimal digits, most significant first. *)
Fixpoint take_digits (s : string) : list Z * string :=
  match s with
  | String c rest =>
      if is_digit c
      then let '(ds, r) := take_digits rest in (code c - 48 :: ds, r)
      else ([], s)
  | EmptyString => ([], s)
  end.

Definition digits_value (ds : list Z) : Z :=
  fold_left (fun acc d => 10 * acc + d) ds 0.

(** The number pattern of the scanner: an optional minus sign, then
    either a single zero or a non-zero digit followed by digits, then an
    optional fraction (a dot and at least one digit), then an optional
    exponent (e or E, an optional sign, at least one digit).  The value
    is an [int] when neither fraction nor exponent is present, a [float]
    otherwise. *)
Definition scan_integer (s : string) : option (list Z * string) :=
  match s with
  | String c rest =>
      if code c =? 48 then Some ([0], rest)
      else if is_digit c then Some (take_digits s)
      else None
  | EmptyString => None
  end.

Definition scan_fraction (s : string) : option (list Z * string) :=
  match s with
  | String "." rest =>
      match take_digits rest with
      | ([], _) => None
      | (ds, r) => Some (ds, r)
      end
  | _ => None
  end.

Definition scan_exponent (s : string) : option (Z * string) :=
  match s with
  | String c rest =>
      if (code c =? 101) || (code c =? 69) then
        let '(neg, rest') :=
          match rest with
          | String "-" r => (true, r)
          | String "+" r => (false, r)
          | _ => (false, rest)
          end in
        match take_digits rest' with
        | ([], _) => None
        | (ds, r) => Some (if neg then - digits_value ds else digits_value ds, r)
        end
      else None
  | EmptyString => None
  end.

Definition scan_number (s : string) : option (pyobj * string) :=
  let '(neg, s1) :=
    match s with String "-" r => (true, r) | _ => (false, s) end in
  match scan_integer s1 with
  | None => None
  | Some (ip, s2) =>
      let sign (z : Z) := if neg then - z else z in
      match scan_fraction s2, scan_exponent s2 with
      | None, None => Some (PInt (sign (digits_value ip)), s2)
      | None, Some (ex, s3) =>
          Some (PFloat (FDec (sign (digits_value ip)) ex), s3)
      | Some (fp, s3), _ =>
          let m := sign (digits_value (ip ++ fp)%list) in
          let shift := Z.of_nat (List.length fp) in
          match scan_exponent s3 with
          | None => Some (PFloat (FDec m (- shift)), s3)
          | Some (ex, s4) => Some (PFloat (FDec m (ex - shift)), s4)
          end
      end
  end.

(** UTF-8 encoding of one code point (surrogates are encoded like any
    other three-byte code point). *)
Definition utf8_encode (cp : Z) : string :=
  if cp <? 128 then String (chr cp) EmptyString
  else if cp <? 2048 then
    String (chr (192 + cp / 64)) (String (chr (128 + cp mod 64)) EmptyString)
  else if cp <? 65536 then
    String (chr (224 + cp / 4096))
      (String (chr (128 + (cp / 64) mod 64))
         (String (chr (128 + cp mod 64)) EmptyString))
  else
    String (chr (240 + cp / 262144))
      (String (chr (128 + (cp / 4096) mod 64))
         (String (chr (128 + (cp / 64) mod 64))
            (String (chr (128 + cp mod 64)) EmptyString))).

Definition hex_value (c : ascii) : option Z :=
  let n := code c in
  if (48 <=? n) && (n <=? 57) then Some (n - 48)
  else if (97 <=? n) && (n <=? 102) then Some (n - 87)
  else if (65 <=? n) && (n <=? 70) then Some (n - 55)
  else None.

(** Four hexadecimal digits after a [u] escape. *)
Definition scan_hex4 (s : string) : option (Z * string) :=
  match s with
  | String a (String b (String c (String d rest))) =>
      match hex_value a, hex_value b, hex_value c, hex_value d with
      | Some x, Some y, Some z, Some t => Some (((x * 16 + y) * 16 + z) * 16 + t, rest)
      | _, _, _, _ => None
      end
  | _ => None
  end.

(** A [u] escape; a high surrogate directly followed by an escaped low
    surrogate denotes one code point. *)
Definition scan_unicode_escape (s : string) : option (Z * string) :=
  match scan_hex4 s with
  | None => None
  | Some (u, rest) =>
      if (55296 <=? u) && (u <=? 56319) then
        match rest with
        | String b (String "u" rest2) =>
            if Ascii.eqb b backslash then
              match scan_hex4 rest2 with
              | Some (u2, rest3) =>
                  if (56320 <=? u2) && (u2 <=? 57343)
                  then Some (65536 + (u - 55296) * 1024 + (u2 - 56320), rest3)
                  else Some (u, rest)
              | None => Some (u, rest)
              end
            else Some (u, rest)
        | _ => Some (u, rest)
        end
      else Some (u, rest)
  end.

(** The body of a string literal, after the opening quote (strict mode:
    raw control characters are refused). *)
Fixpoint scan_string (fuel : nat) (s : string) (acc : string)
  : option (string * string) :=
  match fuel with
  | O => None
  | S fuel' =>
      match s with
      | EmptyString => None
      | String c rest =>
          if Ascii.eqb c dquote then Some (acc, rest)
          else if Ascii.eqb c backslash then
            match rest with
            | EmptyString => None
            | String e rest' =>
                let simple (n : Z) :=
                  scan_string fuel' rest' (acc ++ String (chr n) EmptyString) in
                if Ascii.eqb e dquote then simple 34
                else if Ascii.eqb e backslash then simple 92
                else match e with
                     | "/"%char => simple 47
                     | "b"%char => simple 8
                     | "f"%char => simple 12
                     | "n"%char => simple 10
                     | "r"%char => simple 13
                     | "t"%char => simple 9
                     | "u"%char =>
                         match scan_unicode_escape rest' with
                         | Some (cp, rest'') =>
                             scan_string fuel' rest'' (acc ++ utf8_encode cp)
                         | None => None
                         end
                     | _ => None
                     end
            end
          else if code c <? 32 then None
          else scan_string fuel' rest (acc ++ String c EmptyString)
      end
  end.

(** [scan_once]: one JSON value at the head of [s], and the rest.  [None]
    stands for [JSONDecodeError].  The fuel bounds the nesting depth and
    the number of elements by the length of the document. *)
Fixpoint scan_once (fuel : nat) (s : string) {struct fuel}
  : option (pyobj * string) :=
  match fuel with
  | O => None
  | S fuel' =>
      let fix elements (n : nat) (acc : list pyobj) (s : string) {struct n}
        : option (pyobj * string) :=
        match n with
        | O => None
        | S n' =>
            match scan_once fuel' s with
            | None => None
            | Some (v, s1) =>
                match skip_ws s1 with
                | String "]" r => Some (PList (rev (v :: acc)), r)
                | String "," r => elements n' (v :: acc) (skip_ws r)
                | _ => None
                end
            end
        end in
      let fix members (n : nat) (acc : dict) (s : string) {struct n}
        : option (pyobj * string) :=
        match n with
        | O => None
        | S n' =>
            match s with
            | String q s0 =>
                if Ascii.eqb q dquote then
                  match scan_string (S (String.length s0)) s0 EmptyString with
                  | None => None
                  | Some (k, s1) =>
                      match skip_ws s1 with
                      | String ":" s2 =>
                          match scan_once fuel' (skip_ws s2) with
                          | None => None
                          | Some (v, s3) =>
                              let acc' := dict_set k v acc in
                              match skip_ws s3 with
                              | String "}" r => Some (PDict acc', r)
                              | String "," r => members n' acc' (skip_ws r)
                              | _ => None
                              end
                          end
                      | _ => None
                      end
                  end
                else None
            | EmptyString => None
            end
        end in
      match s with
      | EmptyString => None
      | String c rest =>
          if Ascii.eqb c dquote then
            match scan_string (S (String.length rest)) rest EmptyString with
            | Some (str, r) => Some (PStr str, r)
            | None => None
            end
          else
            match c with
            | "{"%char =>
                match skip_ws rest with
                | String "}" r => Some (PDict [], r)
                | s1 => members (S (String.length s1)) [] s1
                end
            | "["%char =>
                match skip_ws rest with
                | String "]" r => Some (PList [], r)
                | s1 => elements (S (String.length s1)) [] s1
                end
            | _ =>
                match strip_prefix "null" s, strip_prefix "true" s,
                      strip_prefix "false" s with
                | Some r, _, _ => Some (PNone, r)
                | _, Some r, _ => Some (PBool true, r)
                | _, _, Some r => Some (PBool false, r)
                | None, None, None =>
                    match scan_number s with
                    | Some res => Some res
                    | None =>
                        match strip_prefix "NaN" s, strip_prefix "Infinity" s,
                              strip_prefix "-Infinity" s with
                        | Some r, _, _ => Some (PFloat FNan, r)
                        | _, Some r, _ => Some (PFloat (FInf false), r)
                        | _, _, Some r => Some (PFloat (FInf true), r)
                        | None, None, None => None
                        end
                    end
                end
            end
      end
  end.

(** [json.loads(s)] for a [str]: leading and trailing whitespace is
    skipped, anything else after the value is an error. *)
Definition loads (s : string) : res pyobj :=
  let s0 := skip_ws s in
  match scan_once (S (String.length s0)) s0 with
  | None => Raise JSONDecodeError
  | Some (v, rest) =>
      match skip_ws rest with
      | EmptyString => Ret v
      | String _ _ => Raise JSONDecodeError
      end
  end.

(** *** [json.dumps]

    Default options: separators [", "] and [": "], [ensure_ascii=True]. *)

(** The code points of a [str] held as UTF-8. *)
Fixpoint code_points (s : string) (pending : nat) (cp : Z) : list Z :=
  match s with
  | EmptyString => []
  | String c rest =>
      let n := code c in
      match pending with
      | S p =>
          let cp' := cp * 64 + n mod 64 in
          match p with
          | O => cp' :: code_points rest O 0
          | S _ => code_points rest p cp'
          end
      | O =>
          if n <? 128 then n :: code_points rest O 0
          else if n <? 224 then code_points rest 1%nat (n - 192)
          else if n <? 240 then code_points rest 2%nat (n - 224)
          else code_points rest 3%nat (n - 240)
      end
  end.

Definition hex_digit (n : Z) : ascii :=
  if n <? 10 then chr (48 + n) else chr (87 + n).

Definition escape_u (u : Z) : string :=
  String backslash
    (String "u"
       (String (hex_digit (u / 4096))
          (String (hex_digit ((u / 256) mod 16))
             (String (hex_digit ((u / 16) mod 16))
                (String (hex_digit (u mod 16)) EmptyString))))).

Definition escape_code_point (cp : Z) : string :=
  if cp =? 34 then String backslash (String dquote EmptyString)
  else if cp =? 92 then String backslash (String backslash EmptyString)
  else if cp =? 10 then String backslash "n"
  else if cp =? 13 then String backslash "r"
  else if cp =? 9 then String backslash "t"
  else if cp =? 8 then String backslash "b"
  else if cp =? 12 then String backslash "f"
  else if (32 <=? cp) && (cp <=? 126) then String (chr cp) EmptyString
  else if cp <? 65536 then escape_u cp
  else
    let v := cp - 65536 in
    escape_u (55296 + v / 1024) ++ escape_u (56320 + v mod 1024).

Definition encode_str (s : string) : string :=
  String dquote
    (fold_right (fun cp acc => escape_code_point cp ++ acc)
       (String dquote EmptyString) (code_points s O 0)).

Definition int_repr (n : Z) : string := NilZero.string_of_int (Z.to_int n).

(** A finite float is written as mantissa and decimal exponent, which
    reads back as the same [FDec]; Python prints the shortest decimal
    that reads back as the same binary float. *)
Definition float_repr (f : pyfloat) : string :=
  match f with
  | FNan => "NaN"
  | FInf false => "Infinity"
  | FInf true => "-Infinity"
  | FDec m e => int_repr m ++ "e" ++ int_repr e
  end.

Fixpoint join (sep : string) (l : list string) : string :=
  match l with
  | [] => EmptyString
  | [x] => x
  | x :: rest => x ++ sep ++ join sep rest
  end.

Fixpoint dumps (v : pyobj) : string :=
  match v with
  | PNone => "null"
  | PBool true => "true"
  | PBool false => "false"
  | PInt n => int_repr n
  | PFloat f => float_repr f
  | PStr s => encode_str s
  | PList l => "[" ++ join ", " (map dumps l) ++ "]"
  | PDict d =>
      "{" ++ join ", " (map (fun kv => encode_str (fst kv) ++ ": " ++ dumps (snd kv)) d)
          ++ "}"
  end.

End Json.

(** ** The [base64] module and [bytes.decode] *)

Module Base64.

Import Json.

(** The standard alphabet, after the URL-safe translation of [-] to [+]
    and of [_] to [/]. *)
Definition b64_value (c : ascii) : option Z :=
  let n := code c in
  if (65 <=? n) && (n <=? 90) then Some (n - 65)
  else if (97 <=? n) && (n <=? 122) then Some (n - 71)
  else if (48 <=? n) && (n <=? 57) then Some (n + 4)
  else if (n =? 43) || (n =? 45) then Some 62
  else if (n =? 47) || (n =? 95) then Some 63
  else None.

(** [binascii.a2b_base64] in its default, non-strict mode: characters
    outside the alphabet are skipped; a pad character ends the input once
    the pads complete the current quad, and is skipped otherwise; input
    that ends inside a quad is an error. *)
Fixpoint a2b_base64 (s : string) (quad_pos : Z) (leftchar : Z) (pads : Z)
  (out : string) : res string :=
  match s with
  | EmptyString => if quad_pos =? 0 then Ret out else Raise BinasciiError
  | String c rest =>
      if Ascii.eqb c "="%char then
        if 2 <=? quad_pos then
          if 4 <=? quad_pos + (pads + 1) then Ret out
          else a2b_base64 rest quad_pos leftchar (pads + 1) out
        else a2b_base64 rest quad_pos leftchar pads out
      else
        match b64_value c with
        | None => a2b_base64 rest quad_pos leftchar pads out
        | Some v =>
            let emit (b : Z) := out ++ String (chr b) EmptyString in
            if quad_pos =? 0 then a2b_base64 rest 1 v 0 out
            else if quad_pos =? 1 then
              a2b_base64 rest 2 (Z.land v 15) 0
                (emit (Z.lor (Z.shiftl leftchar 2) (Z.shiftr v 4)))
            else if quad_pos =? 2 then
              a2b_base64 rest 3 (Z.land v 3) 0
                (emit (Z.lor (Z.shiftl leftchar 4) (Z.shiftr v 2)))
            else
              a2b_base64 rest 0 0 0 (emit (Z.lor (Z.shiftl leftchar 6) v))
        end
  end.

Fixpoint is_ascii (s : string) : bool :=
  match s with
  | EmptyString => true
  | String c rest => (code c <? 128) && is_ascii rest
  end.

(** [base64.urlsafe_b64decode(s)] for a [str] argument. *)
Definition urlsafe_b64decode (s : string) : res string :=
  if is_ascii s then a2b_base64 s 0 0 0 EmptyString else Raise ValueError.

(** Well-formed UTF-8, as the strict decoder accepts it: no overlong
    forms, no surrogates, nothing above U+10FFFF. *)
Definition in_range (lo hi : Z) (c : ascii) : bool :=
  (lo <=? code c) && (code c <=? hi).

Fixpoint utf8_valid (fuel : nat) (s : string) : bool :=
  match fuel with
  | O => false
  | S fuel' =>
      match s with
      | EmptyString => true
      | String a rest =>
          if code a <? 128 then utf8_valid fuel' rest
          else if in_range 194 223 a then
            match rest with
            | String b r => in_range 128 191 b && utf8_valid fuel' r
            | _ => false
            end
          else if in_range 224 239 a then
            match rest with
            | String b (String c r) =>
                (if code a =? 224 then in_range 160 191 b
                 else if code a =? 237 then in_range 128 159 b
                 else in_range 128 191 b)
                && in_range 128 191 c && utf8_valid fuel' r
            | _ => false
            end
          else if in_range 240 244 a then
            match rest with
            | String b (String c (String d r)) =>
                (if code a =? 240 then in_range 144 191 b
                 else if code a =? 244 then in_range 128 143 b
                 else in_range 128 191 b)
                && in_range 128 191 c && in_range 128 191 d && utf8_valid fuel' r
            | _ => false
            end
          else false
      end
  end.

(** [b.decode('utf-8')] *)
Definition decode_utf8 (b : string) : res string :=
  if utf8_valid (S (String.length b)) b then Ret b else Raise UnicodeDecodeError.

End Base64.

(** ** [jwt_decoder.py] *)

Module Jwt.

(** The second component of the pair [decode_jwt_payload] returns: the
    fixed message for a token that is not in three parts, or the
    decode-failed message built from the exception caught. *)
Inductive error_message : Type :=
| NotValidJwtFormat
| DecodeFailed (e : exn).

(** [payload += '=' * (4 - len(payload) % 4)] *)
Definition add_padding (payload : string) : string :=
  payload ++ str_repeat "="%char (Z.to_nat (4 - py_len payload mod 4)).

(** [JWTAnalyzer.decode_jwt_payload]: the pair (payload, error). *)
Definition decode_jwt_payload (jwt_token : string) : pyobj * option error_message :=
  let parts := split "."%char jwt_token in
  match parts with
  | [_; payload; _] =>
      let payload := add_padding payload in
      match Base64.urlsafe_b64decode payload with
      | Raise e => (PNone, Some (DecodeFailed e))
      | Ret decoded_bytes =>
          match Base64.decode_utf8 decoded_bytes with
          | Raise e => (PNone, Some (DecodeFailed e))
          | Ret text =>
              match Json.loads text with
              | Raise e => (PNone, Some (DecodeFailed e))
              | Ret decoded_json => (decoded_json, None)
              end
          end
      end
  | _ => (PNone, Some NotValidJwtFormat)
  end.

End Jwt.

(** ** The [datetime] module and the numeric operators used on it

    A naive [datetime] is held as the number of microseconds since the
    epoch, a [timedelta] as a number of microseconds.  The local UTC
    offset is taken to be zero and constant, so that [fromtimestamp] and
    [timestamp] are the identity on the instants [datetime] can hold;
    arithmetic on floats is exact. *)

Module Datetime.

(** [datetime.min] and [datetime.max]: years 1 to 9999. *)
Definition datetime_min : Z := -62135596800000000.
Definition datetime_max : Z := 253402300799999999.

(** [timedelta.min] and [timedelta.max]: minus 999999999 days, and
    999999999 days, 23:59:59.999999. *)
Definition timedelta_min : Z := -86399999913600000000.
Definition timedelta_max : Z := 86399999999999999999.

(** [timedelta(days=n)] *)
Definition timedelta_days (n : Z) : Z := n * 86400000000.

(** [m * 10^k] rounded to an integer, ties to even. *)
Definition round_half_even (m k : Z) : Z :=
  if 0 <=? k then m * 10 ^ k
  else
    let d := 10 ^ (- k) in
    let q := m / d in
    let r := m mod d in
    if 2 * r <? d then q
    else if d <? 2 * r then q + 1
    else if Z.even q then q else q + 1.

(** [v > c] for an [int] constant [c]. *)
Definition gt_int (v : pyobj) (c : Z) : res bool :=
  match v with
  | PBool b => Ret ((if b then 1 else 0) >? c)
  | PInt n => Ret (n >? c)
  | PFloat FNan => Ret false
  | PFloat (FInf negative) => Ret (negb negative)
  | PFloat (FDec m e) =>
      Ret (if 0 <=? e then m * 10 ^ e >? c else m >? c * 10 ^ (- e))
  | _ => Raise TypeError
  end.

(** [v / 1000]: true division; an [int] too large for a float raises. *)
Definition div_1000 (v : pyobj) : res pyobj :=
  match v with
  | PBool b => Ret (PFloat (FDec (if b then 1 else 0) (-3)))
  | PInt n =>
      if Z.abs n <? 1000 * 2 ^ 1024 then Ret (PFloat (FDec n (-3)))
      else Raise OverflowError
  | PFloat (FDec m e) => Ret (PFloat (FDec m (e - 3)))
  | PFloat f => Ret (PFloat f)
  | _ => Raise TypeError
  end.

(** A number of seconds in microseconds: exact for an [int], rounded
    half to even for a [float]. *)
Definition seconds_to_us (v : pyobj) : res Z :=
  match v with
  | PBool b => Ret (if b then 1000000 else 0)
  | PInt n => Ret (n * 1000000)
  | PFloat FNan => Raise ValueError
  | PFloat (FInf _) => Raise OverflowError
  | PFloat (FDec m e) => Ret (round_half_even m (e + 6))
  | _ => Raise TypeError
  end.

(** [datetime.fromtimestamp(v)] *)
Definition fromtimestamp (v : pyobj) : res Z :=
  match seconds_to_us v with
  | Raise e => Raise e
  | Ret t =>
      if (datetime_min <=? t) && (t <=? datetime_max) then Ret t
      else Raise ValueError
  end.

(** [timedelta(seconds=v)] *)
Definition timedelta_seconds (v : pyobj) : res Z :=
  match seconds_to_us v with
  | Raise e => Raise e
  | Ret t =>
      if (timedelta_min <=? t) && (t <=? timedelta_max) then Ret t
      else Raise OverflowError
  end.

(** [d + td] for a datetime [d] and a timedelta [td]. *)
Definition datetime_add (d td : Z) : res Z :=
  let t := d + td in
  if (datetime_min <=? t) && (t <=? datetime_max) then Ret t
  else Raise OverflowError.

(** [int(d.timestamp() * 1000)]: milliseconds, truncated towards zero. *)
Definition timestamp_ms (d : Z) : Z := Z.quot d 1000.

End Datetime.

(** ** [cursor_token_refresh.py] *)

Module Manager.

Import Datetime.

(** *** The store: table [ItemTable] of the SQLite file *)

(** A value column as [sqlite3] hands it over: [None] for NULL, an [int]
    for INTEGER, a [str] for TEXT. *)
Inductive cell : Type :=
| CNull
| CInt (n : Z)
| CText (s : string).

Definition row : Type := (string * cell)%type.
Definition table : Type := list row.

Definition lower (c : ascii) : ascii :=
  let n := Json.code c in
  if (65 <=? n) && (n <=? 90) then Json.chr (n + 32) else c.

Fixpoint prefix_nocase (p s : string) : bool :=
  match p, s with
  | EmptyString, _ => true
  | String a p', String b s' => Ascii.eqb (lower a) (lower b) && prefix_nocase p' s'
  | String _ _, EmptyString => false
  end.

(** [key LIKE '%p%']: [p] occurs in [key], ASCII letters compared without
    case. *)
Fixpoint like_contains (p key : string) : bool :=
  match key with
  | EmptyString => prefix_nocase p key
  | String _ rest => prefix_nocase p key || like_contains p rest
  end.

(** [WHERE key LIKE '%auth%' OR key LIKE '%token%'] *)
Definition key_matches (key : string) : bool :=
  like_contains "auth" key || like_contains "token" key.

(** [SELECT key, value FROM ItemTable WHERE ...] followed by
    [fetchall()]. *)
Definition select_auth_rows (t : table) : list row :=
  filter (fun r => key_matches (fst r)) t.

(** [UPDATE ItemTable SET value = ? WHERE key = ?] *)
Definition sql_update (value key : string) (t : table) : table :=
  map (fun r => if (fst r =? key)%string then (fst r, CText value) else r) t.

(** *** The endpoint *)

Record request : Type := mkRequest {
  url : string;
  headers : list (string * string);
  body : pyobj;
  timeout : Z
}.

(** What [requests.post] does: it raises, or it returns a response with
    a status code and a body. *)
Inductive response : Type :=
| HttpError (e : exn)
| HttpResponse (status_code : Z) (text : string).

(** *** The log

    One constructor for each [logging] call of the class, with the values
    its message is formatted from.  The comment gives the line of the
    call and its level. *)
Inductive log_event : Type :=
| FoundAuthEntries (n : Z)                        (* 53, info *)
| FoundAccessToken (key : string)                 (* 64, info *)
| FoundRefreshToken (key : string)                (* 67, info *)
| GetTokensFailed (e : exn)                       (* 81, error *)
| RefreshCallOk                                   (* 105, info *)
| RefreshCallStatus (status_code : Z) (text : string)   (* 108, error *)
| RefreshCallError (e : exn)                      (* 112, error *)
| UpdatedEntry (key old_token new_token : string) (* 152, info *)
| UpdatedCount (n : Z)                            (* 161, info *)
| UpdateDbFailed (e : exn)                        (* 165, error *)
| ExpiryUnknown                                   (* 171, warning *)
| ExpiryTime (expire_time : Z)                    (* 184, info *)
| TimeLeft (time_left : Z)                        (* 185, info *)
| ExpiryCheckFailed (e : exn)                     (* 191, error *)
| CheckStart                                      (* 196, info *)
| NoTokenInfo                                     (* 201, error *)
| NoRefreshToken                                  (* 209, error *)
| StillFresh                                      (* 214, info *)
| RefreshStart                                    (* 217, info *)
| RefreshFailed                                   (* 222, error *)
| RefreshAndUpdateOk                              (* 227, info *)
| RefreshOkUpdateFailed                           (* 230, error *).

(** *** The world and the monad

    [db] is the committed content of the table, [None] when connecting
    or querying raises.  [clock] gives the successive readings of
    [datetime.now()], [ticks] counts the readings made.  [http] is the
    endpoint, [sent] the requests issued (latest first).  [executed] is
    the list of UPDATE statements executed (latest first), committed or
    not.  [log] is the log, latest first. *)
Record world : Type := mkWorld {
  db : option table;
  clock : nat -> Z;
  http : request -> response;
  ticks : nat;
  sent : list request;
  executed : list (string * string);
  log : list log_event
}.

Definition M (A : Type) : Type := world -> res A * world.

Definition ret {A : Type} (a : A) : M A := fun w => (Ret a, w).

Definition raise {A : Type} (e : exn) : M A := fun w => (Raise e, w).

Definition bind {A B : Type} (m : M A) (k : A -> M B) : M B :=
  fun w =>
    match m w with
    | (Ret a, w') => k a w'
    | (Raise e, w') => (Raise e, w')
    end.

(** A pure evaluation that may raise. *)
Definition lift {A : Type} (r : res A) : M A := fun w => (r, w).

(** [try: m  except <classes>: handler] *)
Definition try_except {A : Type} (m : M A) (catches : exn -> bool)
  (handler : exn -> M A) : M A :=
  fun w =>
    match m w with
    | (Ret a, w') => (Ret a, w')
    | (Raise e, w') => if catches e then handler e w' else (Raise e, w')
    end.

(** [except Exception] *)
Definition any_exception (e : exn) : bool := true.

Notation "x <- c1 ;; c2" := (bind c1 (fun x => c2))
  (at level 61, c1 at next level, right associativity).
Notation "c1 ;; c2" := (bind c1 (fun _ => c2))
  (at level 61, right associativity).

Definition logging (ev : log_event) : M unit :=
  fun w => (Ret tt,
            mkWorld (db w) (clock w) (http w) (ticks w) (sent w) (executed w)
              (ev :: log w)).

(** [sqlite3.connect(self.db_path)] and the SELECT: the connection sees
    the committed table. *)
Definition sqlite3_connect : M table :=
  fun w =>
    match db w with
    | Some t => (Ret t, w)
    | None => (Raise OperationalError, w)
    end.

(** [cursor.execute("UPDATE ...", (value, key))] inside the connection's
    open transaction [tx]. *)
Definition execute_update (value key : string) (tx : table) : M table :=
  fun w => (Ret (sql_update value key tx),
            mkWorld (db w) (clock w) (http w) (ticks w) (sent w)
              ((value, key) :: executed w) (log w)).

(** [conn.commit()] *)
Definition commit (tx : table) : M unit :=
  fun w => (Ret tt,
            mkWorld (Some tx) (clock w) (http w) (ticks w) (sent w) (executed w)
              (log w)).

(** [datetime.now()] *)
Definition datetime_now : M Z :=
  fun w => (Ret (clock w (ticks w)),
            mkWorld (db w) (clock w) (http w) (S (ticks w)) (sent w) (executed w)
              (log w)).

(** [requests.post(...)] *)
Definition requests_post (req : request) : M (Z * string) :=
  fun w =>
    let w' := mkWorld (db w) (clock w) (http w) (ticks w) (req :: sent w)
                (executed w) (log w) in
    match http w req with
    | HttpError e => (Raise e, w')
    | HttpResponse status_code text => (Ret (status_code, text), w')
    end.

(** *** [CursorTokenManager] *)

(** [self.api_base] *)
Definition api_base : string := "https://api2.cursor.sh/api".

(** Truthiness of a column value, and [json.loads] applied to it (an
    [int] is not an accepted argument). *)
Definition cell_truthy (c : cell) : bool :=
  match c with
  | CNull => false
  | CInt n => negb (n =? 0)
  | CText s => negb (s =? EmptyString)%string
  end.

Definition json_loads (c : cell) : res pyobj :=
  match c with
  | CText s => Json.loads s
  | _ => Raise TypeError
  end.

Definition cell_value (c : cell) : pyobj :=
  match c with
  | CNull => PNone
  | CInt n => PInt n
  | CText s => PStr s
  end.

(** The dictionary [get_current_tokens] returns. *)
Record token_info : Type := mkTokenInfo {
  access_token : pyobj;
  refresh_token : pyobj;
  expires_at : pyobj;
  raw_data : dict
}.

(** Lines 45-49: the loop that fills [auth_data]. *)
Fixpoint load_auth_data (rows : list row) (auth_data : dict) : M dict :=
  match rows with
  | [] => ret auth_data
  | (key, value) :: rest =>
      v <- try_except
             (if cell_truthy value then lift (json_loads value) else ret PNone)
             is_JSONDecodeError
             (fun _ => ret (cell_value value)) ;;
      load_auth_data rest (dict_set key v auth_data)
  end.

(** Lines 60-71: the loop over [auth_data.items()]; the accumulator holds
    [access_token], [refresh_token] and [expires_at]. *)
Fixpoint scan_items (items : dict) (acc : pyobj * pyobj * pyobj)
  : M (pyobj * pyobj * pyobj) :=
  match items with
  | [] => ret acc
  | (key, data) :: rest =>
      let '(access_token, refresh_token, expires_at) := acc in
      match data with
      | PDict d =>
          access_token <-
            match dict_get "accessToken" d with
            | Some v => logging (FoundAccessToken key) ;; ret v
            | None => ret access_token
            end ;;
          refresh_token <-
            match dict_get "refreshToken" d with
            | Some v => logging (FoundRefreshToken key) ;; ret v
            | None => ret refresh_token
            end ;;
          let expires_at :=
            match dict_get "expiresAt" d with
            | Some v => v
            | None =>
                match dict_get "expires_at" d with
                | Some v => v
                | None => expires_at
                end
            end in
          scan_items rest (access_token, refresh_token, expires_at)
      | _ => scan_items rest acc
      end
  end.

(** [get_current_tokens]: [None] when anything raised. *)
Definition get_current_tokens : M (option token_info) :=
  try_except
    (conn <- sqlite3_connect ;;
     let rows := select_auth_rows conn in
     auth_data <- load_auth_data rows [] ;;
     logging (FoundAuthEntries (Z.of_nat (List.length auth_data))) ;;
     found <- scan_items auth_data (PNone, PNone, PNone) ;;
     let '(access_token, refresh_token, expires_at) := found in
     ret (Some (mkTokenInfo access_token refresh_token expires_at auth_data)))
    any_exception
    (fun e => logging (GetTokensFailed e) ;; ret None).

(** [refresh_access_token]: the decoded body, or [None]. *)
Definition refresh_access_token (refresh_token : pyobj) : M pyobj :=
  try_except
    (let headers := [("Content-Type", "application/json");
                     ("User-Agent", "Cursor/1.0")] in
     let data := PDict [("refresh_token", refresh_token)] in
     response <- requests_post
                   (mkRequest (api_base ++ "/auth/refresh") headers data 30) ;;
     let '(status_code, text) := response in
     if status_code =? 200 then
       result <- lift (Json.loads text) ;;
       logging RefreshCallOk ;;
       ret result
     else
       logging (RefreshCallStatus status_code text) ;;
       ret PNone)
    any_exception
    (fun e => logging (RefreshCallError e) ;; ret PNone).

(** [token[:20] + "..." if token else "None"]: slicing and concatenating
    raise on anything that is not a [str]. *)
Definition preview (token : pyobj) : res string :=
  if truthy token then
    match token with
    | PStr s => Ret (py_take 20 s ++ "...")
    | _ => Raise TypeError
    end
  else Ret "None".

(** Lines 129-153: the body of the [try] inside the loop of
    [update_token_in_db], for one row.  Returns the transaction after the
    UPDATE when the row was updated. *)
Definition update_row (new_token_data : pyobj) (key : string) (value : cell)
  (tx : table) : M (option table) :=
  data <- (if cell_truthy value then lift (json_loads value) else ret (PDict [])) ;;
  match data with
  | PDict d =>
      match dict_get "accessToken" d with
      | Some old =>
          old_token <- lift (preview old) ;;
          match new_token_data with
          | PDict nd =>
              let d := dict_set "accessToken"
                         (dict_get_default "access_token" old nd) d in
              let d := match dict_get "refresh_token" nd with
                       | Some v => dict_set "refreshToken" v d
                       | None => d
                       end in
              d <- match dict_get "expires_in" nd with
                   | Some v =>
                       now <- datetime_now ;;
                       delta <- lift (timedelta_seconds v) ;;
                       t <- lift (datetime_add now delta) ;;
                       ret (dict_set "expiresAt" (PInt (timestamp_ms t)) d)
                   | None => ret d
                   end ;;
              tx <- execute_update (Json.dumps (PDict d)) key tx ;;
              new_token <- lift (preview (dict_get_default "accessToken" PNone d)) ;;
              logging (UpdatedEntry key old_token new_token) ;;
              ret (Some tx)
          | _ => raise AttributeError
          end
      | None => ret None
      end
  | _ => ret None
  end.

(** Lines 127-156: the loop, with the transaction and [updated_count]. *)
Fixpoint update_rows (new_token_data : pyobj) (rows : list row) (tx : table)
  (updated_count : Z) : M (table * Z) :=
  match rows with
  | [] => ret (tx, updated_count)
  | (key, value) :: rest =>
      r <- try_except (update_row new_token_data key value tx)
             is_JSONDecodeError (fun _ => ret None) ;;
      match r with
      | Some tx' => update_rows new_token_data rest tx' (updated_count + 1)
      | None => update_rows new_token_data rest tx updated_count
      end
  end.

(** [update_token_in_db] *)
Definition update_token_in_db (new_token_data : pyobj) : M bool :=
  try_except
    (conn <- sqlite3_connect ;;
     let rows := select_auth_rows conn in
     r <- update_rows new_token_data rows conn 0 ;;
     let '(tx, updated_count) := r in
     commit tx ;;
     logging (UpdatedCount updated_count) ;;
     ret (updated_count >? 0))
    any_exception
    (fun e => logging (UpdateDbFailed e) ;; ret false).

(** [check_token_expiry] *)
Definition check_token_expiry (expires_at : pyobj) : M bool :=
  if negb (truthy expires_at) then
    logging ExpiryUnknown ;;
    ret true
  else
    try_except
      (is_ms <- lift (gt_int expires_at (10 ^ 12)) ;;
       expire_time <-
         (if is_ms : bool then
            seconds <- lift (div_1000 expires_at) ;;
            lift (fromtimestamp seconds)
          else lift (fromtimestamp expires_at)) ;;
       now <- datetime_now ;;
       let time_left := expire_time - now in
       logging (ExpiryTime expire_time) ;;
       logging (TimeLeft time_left) ;;
       ret (time_left <? timedelta_days 10))
      any_exception
      (fun e => logging (ExpiryCheckFailed e) ;; ret true).

(** [refresh_if_needed] *)
Definition refresh_if_needed : M bool :=
  logging CheckStart ;;
  token_info <- get_current_tokens ;;
  match token_info with
  | None =>
      logging NoTokenInfo ;;
      ret false
  | Some token_info =>
      let refresh_token := refresh_token token_info in
      let expires_at := expires_at token_info in
      if negb (truthy refresh_token) then
        logging NoRefreshToken ;;
        ret false
      else
        needed <- check_token_expiry expires_at ;;
        if negb needed then
          logging StillFresh ;;
          ret true
        else
          logging RefreshStart ;;
          new_token_data <- refresh_access_token refresh_token ;;
          if negb (truthy new_token_data) then
            logging RefreshFailed ;;
            ret false
          else
            updated <- update_token_in_db new_token_data ;;
            if updated : bool then
              logging RefreshAndUpdateOk ;;
              ret true
            else
              logging RefreshOkUpdateFailed ;;
              ret false
  end.

End Manager.

(** ** Vocabulary of the specification *)

Module Spec.

Import Datetime Manager.

(** The value the scan holds for one column value: the decoded JSON, the
    raw value when it is not JSON, [None] when it is empty. *)
Definition parsed (c : cell) : pyobj :=
  if cell_truthy c then
    match json_loads c with
    | Ret v => v
    | Raise _ => cell_value c
    end
  else PNone.

(** The records of a scan, in enumeration order. *)
Definition records (rows : list row) : dict :=
  fold_left (fun acc r => dict_set (fst r) (parsed (snd r)) acc) rows [].

(** A column value [json.loads] accepts as an argument. *)
Definition loadable (r : row) : Prop :=
  match snd r with
  | CInt n => n = 0
  | _ => True
  end.

(** The record is a mapping that has the field. *)
Definition holds (f : string) (item : string * pyobj) : bool :=
  match snd item with
  | PDict d => dict_has f d
  | _ => false
  end.

Definition field_of (f : string) (item : string * pyobj) : pyobj :=
  match snd item with
  | PDict d => dict_get_default f PNone d
  | _ => PNone
  end.

Definition is_none (v : pyobj) : bool :=
  match v with PNone => true | _ => false end.

(** First match wins: the first non-absent value of the field, in
    enumeration order. *)
Definition first_present (f : string) (items : dict) : pyobj :=
  match find (fun it => negb (is_none (field_of f it))) items with
  | Some it => field_of f it
  | None => PNone
  end.

(** Last match wins: the value of the field in the last record that has
    it, in enumeration order; [default] when no record has it. *)
Definition last_holding_or (f : string) (items : dict) (default : pyobj) : pyobj :=
  match find (holds f) (rev items) with
  | Some it => field_of f it
  | None => default
  end.

Definition last_holding (f : string) (items : dict) : pyobj :=
  last_holding_or f items PNone.

(** The same for the expiry, which a record gives under [expiresAt] or,
    failing that, under [expires_at]. *)
Definition holds_expiry (item : string * pyobj) : bool :=
  holds "expiresAt" item || holds "expires_at" item.

Definition expiry_of (item : string * pyobj) : pyobj :=
  if holds "expiresAt" item then field_of "expiresAt" item
  else field_of "expires_at" item.

Definition last_expiry_or (items : dict) (default : pyobj) : pyobj :=
  match find holds_expiry (rev items) with
  | Some it => expiry_of it
  | None => default
  end.

Definition last_expiry (items : dict) : pyobj := last_expiry_or items PNone.

(** The persist step rewrites this column value: it decodes to a mapping
    with an [accessToken] field. *)
Definition updatable (c : cell) : bool :=
  if cell_truthy c then
    match json_loads c with
    | Ret (PDict d) => dict_has "accessToken" d
    | _ => false
    end
  else false.


(** A token as the data model has it: a string, or absent. *)
Definition is_token (v : pyobj) : bool :=
  match v with
  | PNone | PStr _ => true
  | _ => false
  end.

(** The mapping written for a record [d] when the refresh response is
    [nd] and the clock reads [now]: [accessToken] replaced, [refreshToken]
    replaced when the response supplies one, [expiresAt] set to [now] plus
    [expires_in] seconds, in milliseconds, when the response has
    [expires_in]. *)
Definition renewed (nd : dict) (now : Z) (d : dict) : dict :=
  let d1 :=
    match dict_get "access_token" nd with
    | Some a => dict_set "accessToken" a d
    | None => d
    end in
  let d2 :=
    match dict_get "refresh_token" nd with
    | Some r => dict_set "refreshToken" r d1
    | None => d1
    end in
  match dict_get "expires_in" nd with
  | Some (PInt n) =>
      dict_set "expiresAt" (PInt (Z.quot (now + n * 1000000) 1000)) d2
  | _ => d2
  end.

(** What the persist step does to one row of the table, when [selected]
    tells the keys of the rows it goes through. *)
Definition persisted_if (selected : string -> bool) (w : world) (nd : dict)
  (before after : row) : Prop :=
  fst after = fst before /\
  if selected (fst before) && updatable (snd before) then
    exists d i,
      json_loads (snd before) = Ret (PDict d) /\
      snd after = CText (Json.dumps (PDict (renewed nd (clock w i) d)))
  else snd after = snd before.

Definition persisted : world -> dict -> row -> row -> Prop :=
  persisted_if key_matches.

(** The refresh response as the data model has it: [access_token] a
    string when present, [expires_in] an integer number of seconds that
    keeps every reading of the clock within the range of [datetime]. *)
Definition response_typed (w : world) (nd : dict) : Prop :=
  (forall a, dict_get "access_token" nd = Some a -> is_token a = true) /\
  (forall v, dict_get "expires_in" nd = Some v ->
     exists n, v = PInt n /\
       forall i, datetime_min <= clock w i <= datetime_max /\
                 datetime_min <= clock w i + n * 1000000 <= datetime_max).

(** The stored records as the data model has them: [accessToken] a
    string or absent. *)
Definition record_typed (r : row) : Prop :=
  forall d a, json_loads (snd r) = Ret (PDict d) ->
    dict_get "accessToken" d = Some a -> is_token a = true.

(** The body of a successful refresh response according to the
    specification: a JSON mapping with at least [access_token]. *)
Definition has_access_token (text : string) : bool :=
  match Json.loads text with
  | Ret (PDict d) => dict_has "access_token" d
  | _ => false
  end.

Definition refresh_request (refresh_token : pyobj) : request :=
  mkRequest "https://api2.cursor.sh/api/auth/refresh"
    [("Content-Type", "application/json"); ("User-Agent", "Cursor/1.0")]
    (PDict [("refresh_token", refresh_token)]) 30.

(** What the refresh client hands back for a reaction of the endpoint,
    and the line it logs. *)
Definition refresh_result (r : response) : pyobj :=
  match r with
  | HttpResponse status_code text =>
      if status_code =? 200 then
        match Json.loads text with
        | Ret v => v
        | Raise _ => PNone
        end
      else PNone
  | HttpError _ => PNone
  end.

Definition refresh_logged (r : response) : log_event :=
  match r with
  | HttpResponse status_code text =>
      if status_code =? 200 then
        match Json.loads text with
        | Ret _ => RefreshCallOk
        | Raise e => RefreshCallError e
        end
      else RefreshCallStatus status_code text
  | HttpError e => RefreshCallError e
  end.

(** The number a value counts as, as a mantissa and a decimal exponent;
    [None] when the value is not a finite number. *)
Definition as_number (v : pyobj) : option (Z * Z) :=
  match v with
  | PBool b => Some (if b then 1 else 0, 0)
  | PInt n => Some (n, 0)
  | PFloat (FDec m e) => Some (m, e)
  | _ => None
  end.

(** The normalization rule: a number greater than 10^12 counts
    milliseconds since the epoch, any other number counts seconds.  The
    result is the instant in microseconds; [None] when the value is not a
    number or the instant is outside the years 1 to 9999. *)
Definition instant_of (v : pyobj) : option Z :=
  match as_number v with
  | Some (m, e) =>
      let is_ms :=
        if e <? 0 then 10 ^ 12 * 10 ^ (- e) <? m else 10 ^ 12 <? m * 10 ^ e in
      let t := round_half_even m (if is_ms : bool then e + 3 else e + 6) in
      if (t <? datetime_min) || (datetime_max <? t) then None else Some t
  | None => None
  end.


(** The latest line of the log. *)
Definition last_logged (w : world) : option log_event := hd_error (log w).

(** [w'] differs from [w] in its log at most. *)
Definition log_only (w w' : world) : Prop :=
  db w' = db w /\ clock w' = clock w /\ http w' = http w /\
  ticks w' = ticks w /\ sent w' = sent w /\ executed w' = executed w.

(** Between [w] and [w'] nothing was written to the store and nothing
    was sent; clock readings and log lines apart, the world is the same. *)
Definition untouched (w w' : world) : Prop :=
  db w' = db w /\ clock w' = clock w /\ http w' = http w /\
  sent w' = sent w /\ executed w' = executed w.

End Spec.

(** ** Concrete stores and tokens *)

Module Examples.

Import Manager.

(** JSON text is written with single quotes and turned into double
    quotes. *)
Fixpoint dq (s : string) : string :=
  match s with
  | EmptyString => EmptyString
  | String c rest =>
      String (if Ascii.eqb c "'"%char then Json.dquote else c) (dq rest)
  end.

(** A clock that starts on 2023-11-14 and advances one microsecond per
    reading, for one second. *)
Definition clock0 (n : nat) : Z := 1700000000000000 + Z.min (Z.of_nat n) 1000000.

Definition world_of (t : option table) (endpoint : request -> response) : world :=
  mkWorld t clock0 endpoint 0 [] [] [].

Definition endpoint_ok (_ : request) : response :=
  HttpResponse 200 (dq "{'access_token': 'NEW', 'expires_in': 3600}").

Definition endpoint_401 (_ : request) : response :=
  HttpResponse 401 (dq "{'error': 'unauthorized'}").

Definition endpoint_no_access_token (_ : request) : response :=
  HttpResponse 200 (dq "{'foo': 'bar'}").

(** One credential record that expires one day after the first reading
    of the clock. *)
Definition one_record : table :=
  [("cursorAuth/tokens",
    CText (dq "{'accessToken': 'OLD', 'refreshToken': 'R1', 'expiresAt': 1700086400000}"))].

(** Two credential records with different tokens. *)
Definition two_records : table :=
  [("cursorAuth/first",
    CText (dq "{'accessToken': 'A1', 'refreshToken': 'R1', 'expiresAt': 1700086400000}"));
   ("cursorAuth/second",
    CText (dq "{'accessToken': 'A2', 'refreshToken': 'R2', 'expiresAt': 1800000000000}"))].


(** Two credential records, the second with a number where the data
    model has a string. *)
Definition untyped_records : table :=
  [("cursorAuth/tokens",
    CText (dq "{'accessToken': 'OLD', 'refreshToken': 'R1', 'expiresAt': 1700086400000}"));
   ("cursorAuth/legacyToken", CText (dq "{'accessToken': 12345}"))].

(** A token whose payload, [{'a':123}] in base64, is twelve characters
    long. *)
Definition token_len12 : string := "h.eyJhIjoxMjN9.s".

(** A token whose payload is the base64 of an empty JSON array. *)
Definition token_array : string := "h.W10.s".

End Examples.

(** ** [jwt_decoder.py], the expiry analysis *)

Module Analyzer.

Import Datetime Manager.

(** Year, month and day of a number of days since 1970-01-01 in the
    proleptic Gregorian calendar. *)
Definition civil_from_days (z : Z) : Z * Z * Z :=
  let z := z + 719468 in
  let era := z / 146097 in
  let doe := z - era * 146097 in
  let yoe := (doe - doe / 1460 + doe / 36524 - doe / 146096) / 365 in
  let doy := doe - (365 * yoe + yoe / 4 - yoe / 100) in
  let mp := (5 * doy + 2) / 153 in
  let d := doy - (153 * mp + 2) / 5 + 1 in
  let m := if mp <? 10 then mp + 3 else mp - 9 in
  let y := yoe + era * 400 in
  (if m <=? 2 then y + 1 else y, m, d).

(** ['%0wd' % n] for a non-negative [n]. *)
Definition zfill (width : nat) (n : Z) : string :=
  let s := Json.int_repr n in
  str_repeat "0"%char (width - String.length s) ++ s.

(** [t.strftime('%Y-%m-%d %H:%M:%S')]; the year is written without
    padding, as the C library of Linux writes it. *)
Definition strftime (t : Z) : string :=
  let secs := t / 1000000 in
  let rem := secs mod 86400 in
  let '(y, m, d) := civil_from_days (secs / 86400) in
  Json.int_repr y ++ "-" ++ zfill 2 m ++ "-" ++ zfill 2 d ++ " " ++
  zfill 2 (rem / 3600) ++ ":" ++ zfill 2 (rem / 60 mod 60) ++ ":" ++
  zfill 2 (rem mod 60).

(** [str(td)] for a [timedelta]: days (floored, left out when zero),
    then hours, minutes and seconds, then the microseconds when they are
    not zero. *)
Definition str_timedelta (td : Z) : string :=
  let days := td / 86400000000 in
  let rest := td mod 86400000000 in
  let seconds := rest / 1000000 in
  let microseconds := rest mod 1000000 in
  let clock_part :=
    Json.int_repr (seconds / 3600) ++ ":" ++ zfill 2 (seconds / 60 mod 60)
    ++ ":" ++ zfill 2 (seconds mod 60) in
  let day_part :=
    if days =? 0 then EmptyString
    else Json.int_repr days ++ " day"
         ++ (if Z.abs days =? 1 then EmptyString else "s") ++ ", " in
  let fraction :=
    if microseconds =? 0 then EmptyString else "." ++ zfill 6 microseconds in
  day_part ++ clock_part ++ fraction.

(** The text written for a token that is past its expiry. *)
Definition expired_text : string := "已过期".

(** [payload.get(k)]: only a mapping has the method. *)
Definition get (payload : pyobj) (k : string) : M pyobj :=
  match payload with
  | PDict d => ret (dict_get_default k PNone d)
  | _ => raise AttributeError
  end.

(** [JWTAnalyzer.analyze_token_expiry]: [None] for a falsy payload, the
    report otherwise.  Nothing is caught. *)
Definition analyze_token_expiry (payload : pyobj) : M pyobj :=
  if negb (truthy payload) then ret PNone
  else
    exp_timestamp <- get payload "exp" ;;
    iat_timestamp <- get payload "iat" ;;
    let result : dict := [] in
    result <-
      (if truthy exp_timestamp then
         exp_time <- lift (fromtimestamp exp_timestamp) ;;
         now <- datetime_now ;;
         let result := dict_set "expires_at" (PStr (strftime exp_time)) result in
         let result := dict_set "is_expired" (PBool (exp_time <? now)) result in
         ret (dict_set "time_until_expiry"
                (PStr (if exp_time >? now then str_timedelta (exp_time - now)
                       else expired_text))
                result)
       else ret result) ;;
    result <-
      (if truthy iat_timestamp then
         iat_time <- lift (fromtimestamp iat_timestamp) ;;
         let result := dict_set "issued_at" (PStr (strftime iat_time)) result in
         now <- datetime_now ;;
         ret (dict_set "age" (PStr (str_timedelta (now - iat_time))) result)
       else ret result) ;;
    ret (PDict result).

End Analyzer.

(** ** Plain JSON values *)

Module Plain.

Import Json.

(** A printable ASCII character other than the double quote and the
    backslash: [json.dumps] writes it as it is. *)
Definition plain_char (c : ascii) : bool :=
  let n := code c in
  (32 <=? n) && (n <=? 126) && negb (n =? 34) && negb (n =? 92).

Fixpoint plain_string (s : string) : bool :=
  match s with
  | EmptyString => true
  | String c rest => plain_char c && plain_string rest
  end.




(** The two loops of [scan_once], for the elements of an array and for
    the members of an object, on their own. *)
Definition elements (fuel' : nat) : nat -> list pyobj -> string -> option (pyobj * string) :=
  fix elements (n : nat) (acc : list pyobj) (s : string) {struct n}
    : option (pyobj * string) :=
    match n with
    | O => None
    | S n' =>
        match scan_once fuel' s with
        | None => None
        | Some (v, s1) =>
            match skip_ws s1 with
            | String "]" r => Some (PList (rev (v :: acc)), r)
            | String "," r => elements n' (v :: acc) (skip_ws r)
            | _ => None
            end
        end
    end.

Definition members (fuel' : nat) : nat -> dict -> string -> option (pyobj * string) :=
  fix members (n : nat) (acc : dict) (s : string) {struct n}
    : option (pyobj * string) :=
    match n with
    | O => None
    | S n' =>
        match s with
        | String q s0 =>
            if Ascii.eqb q dquote then
              match scan_string (S (String.length s0)) s0 EmptyString with
              | None => None
              | Some (k, s1) =>
                  match skip_ws s1 with
                  | String ":" s2 =>
                      match scan_once fuel' (skip_ws s2) with
                      | None => None
                      | Some (v, s3) =>
                          let acc' := dict_set k v acc in
                          match skip_ws s3 with
                          | String "}" r => Some (PDict acc', r)
                          | String "," r => members n' acc' (skip_ws r)
                          | _ => None
                          end
                      end
                  | _ => None
                  end
              end
            else None
        | EmptyString => None
        end
    end.








End Plain.

(** ** Further vocabulary *)

Module Edge.

Import Datetime Manager Spec.

(** A column value that [json.loads] refuses as an argument: a non-zero
    integer. *)
Definition not_text (r : row) : Prop :=
  exists n, snd r = CInt n /\ n <> 0.

(** The fields the persist step may write. *)
Definition token_field (f : string) : bool :=
  (f =? "accessToken")%string || (f =? "refreshToken")%string
  || (f =? "expiresAt")%string.

(** The mapping [after] keeps the keys of [before] in their order and
    may have new ones behind them. *)
Definition keeps_keys (before after : dict) : Prop :=
  exists added, map fst after = (map fst before ++ added)%list.

(** What the persist step may change in a row, for the response [nd]:
    the row is as it was, or its value is the serialisation of the record
    it held with the same fields in the same order (new ones behind
    them), each field that is not a token field as it was, each token
    field as it was when the response lacks its counterpart, and
    [accessToken] and [refreshToken] as the response gives them when it
    has them. *)
Definition rewritten_with_care (nd : dict) (before after : row) : Prop :=
  fst after = fst before /\
  (snd after = snd before \/
   exists d d',
     json_loads (snd before) = Ret (PDict d) /\
     snd after = CText (Json.dumps (PDict d')) /\
     keeps_keys d d' /\
     (forall f, token_field f = false -> dict_get f d' = dict_get f d) /\
     (dict_get "refresh_token" nd = None ->
      dict_get "refreshToken" d' = dict_get "refreshToken" d) /\
     (dict_get "expires_in" nd = None ->
      dict_get "expiresAt" d' = dict_get "expiresAt" d) /\
     (dict_get "access_token" nd = None ->
      dict_get "accessToken" d' = dict_get "accessToken" d) /\
     (forall a, dict_get "access_token" nd = Some a ->
      dict_get "accessToken" d' = Some a) /\
     (forall r, dict_get "refresh_token" nd = Some r ->
      dict_get "refreshToken" d' = Some r)).

(** A credential record with a field the persist step has no business
    with, next to a row the filter does not select. *)
Definition profile_record : table :=
  [("cursorAuth/tokens",
    CText (Examples.dq
             "{'email': 'a@b.c', 'accessToken': 'OLD', 'refreshToken': 'R1'}"));
   ("workbench.theme", CText "dark")].

(** [payload.get(k)] for a mapping. *)
Definition timestamp (k : string) (d : dict) : pyobj :=
  dict_get_default k PNone d.

(** A timestamp the analysis gets through: it is falsy and skipped, or
    [datetime.fromtimestamp] takes it. *)
Definition usable (v : pyobj) : Prop :=
  truthy v = false \/ exists i, fromtimestamp v = Ret i.

(** What makes the analysis of a truthy payload raise: the payload is not
    a mapping, or [datetime.fromtimestamp] refuses a truthy [exp], or it
    refuses a truthy [iat] after [exp] went through. *)
Inductive crash_cause : pyobj -> exn -> Prop :=
| not_a_mapping v :
    (forall d, v <> PDict d) -> crash_cause v AttributeError
| exp_refused d e :
    truthy (timestamp "exp" d) = true ->
    fromtimestamp (timestamp "exp" d) = Raise e ->
    crash_cause (PDict d) e
| iat_refused d e :
    usable (timestamp "exp" d) ->
    truthy (timestamp "iat" d) = true ->
    fromtimestamp (timestamp "iat" d) = Raise e ->
    crash_cause (PDict d) e.

(** The fields of the report for a timestamp that is there. *)
Definition expiry_fields : list string :=
  ["expires_at"; "is_expired"; "time_until_expiry"].
Definition issue_fields : list string := ["issued_at"; "age"].

(** The number of dots of a token. *)
Fixpoint dots (s : string) : nat :=
  match s with
  | EmptyString => O
  | String c rest => ((if Ascii.eqb c "."%char then 1 else 0) + dots rest)%nat
  end.

(** Every character is one of the 64 of the URL-safe or of the standard
    base64 alphabet. *)
Fixpoint in_alphabet (p : string) : bool :=
  match p with
  | EmptyString => true
  | String c rest =>
      match Base64.b64_value c with
      | Some _ => in_alphabet rest
      | None => false
      end
  end.

(** [header + '.' + payload + '.' + signature] *)
Definition token_of (header payload signature : string) : string :=
  header ++ String "."%char (payload ++ String "."%char signature).

End Edge.

(** * Properties *)

Import Datetime Manager Spec.

(** ** The monad *)

Ltac run_step :=
  unfold bind, ret, raise, lift, try_except, logging, sqlite3_connect,
    execute_update, commit, datetime_now, requests_post, any_exception in *.

Lemma log_only_refl w : log_only w w.
Proof. repeat split. Qed.

Lemma log_only_trans w1 w2 w3 :
  log_only w1 w2 -> log_only w2 w3 -> log_only w1 w3.
Proof.
  unfold log_only; intros (A1 & A2 & A3 & A4 & A5 & A6) (B1 & B2 & B3 & B4 & B5 & B6).
  repeat split; congruence.
Qed.

Lemma log_only_untouched w w' : log_only w w' -> untouched w w'.
Proof. unfold log_only, untouched; intuition. Qed.

(** ** [json.loads] raises nothing but [JSONDecodeError] *)

Lemma loads_raises s e : Json.loads s = Raise e -> e = JSONDecodeError.
Proof.
  unfold Json.loads.
  destruct (Json.scan_once _ _) as [[v rest]|]; [|congruence].
  destruct (Json.skip_ws rest); congruence.
Qed.

(** ** Dictionaries *)

Lemma dict_set_same {A : Type} k (v : A) d :
  dict_get k d = Some v -> dict_set k v d = d.
Proof.
  induction d as [|[k' v'] d IH]; simpl; [discriminate|].
  destruct (k' =? k)%string eqn:E.
  - intros [= ->]; reflexivity.
  - intros H; rewrite IH; auto.
Qed.

Lemma dict_get_set_eq {A : Type} k (v : A) d :
  dict_get k (dict_set k v d) = Some v.
Proof.
  induction d as [|[k' v'] d IH]; simpl.
  - rewrite String.eqb_refl; reflexivity.
  - destruct (k' =? k)%string eqn:E; simpl; rewrite E; auto.
Qed.

Lemma dict_get_set_neq {A : Type} k k' (v : A) d :
  k <> k' -> dict_get k' (dict_set k v d) = dict_get k' d.
Proof.
  intros N; induction d as [|[k0 v0] d IH]; simpl.
  - destruct (k =? k')%string eqn:E; [apply String.eqb_eq in E; congruence|reflexivity].
  - destruct (k0 =? k)%string eqn:E; simpl.
    + apply String.eqb_eq in E; subst k0.
      destruct (k =? k')%string eqn:E'; [apply String.eqb_eq in E'; congruence|reflexivity].
    + destruct (k0 =? k')%string; auto.
Qed.

(** ** [get_current_tokens] *)

Lemma load_auth_data_world rows : forall acc w,
  snd (load_auth_data rows acc w) = w.
Proof.
  induction rows as [|[k c] rows IH]; intros acc w; simpl; [reflexivity|].
  run_step.
  destruct (cell_truthy c); simpl.
  - destruct (json_loads c) as [v|e]; [apply IH|].
    destruct (is_JSONDecodeError e); [apply IH|reflexivity].
  - apply IH.
Qed.

Lemma load_auth_data_loadable rows : forall acc w,
  Forall loadable rows ->
  load_auth_data rows acc w =
    (Ret (fold_left (fun acc r => dict_set (fst r) (parsed (snd r)) acc) rows acc), w).
Proof.
  induction rows as [|[k c] rows IH]; intros acc w H; simpl; [reflexivity|].
  inversion H as [|? ? Hc Hrows]; subst.
  run_step. unfold parsed; simpl.
  destruct (cell_truthy c) eqn:T; simpl.
  - destruct c as [|n|s]; simpl in *; try discriminate.
    + red in Hc; simpl in Hc; subst n; discriminate.
    + destruct (Json.loads s) as [v|e] eqn:L; [apply IH; auto|].
      apply loads_raises in L; subst e; simpl. apply IH; auto.
  - apply IH; auto.
Qed.

Lemma load_auth_data_ret rows : forall acc w d w',
  load_auth_data rows acc w = (Ret d, w') -> Forall loadable rows.
Proof.
  induction rows as [|[k c] rows IH]; intros acc w d w' H; [constructor|].
  simpl in H. run_step.
  destruct (cell_truthy c) eqn:T; simpl in H.
  - destruct c as [|n|s]; simpl in *; try discriminate.
    destruct (Json.loads s) as [v|e] eqn:L.
    + constructor; [exact I|eapply IH; eauto].
    + apply loads_raises in L; subst e; simpl in H.
      constructor; [exact I|eapply IH; eauto].
  - constructor; [|eapply IH; eauto].
    destruct c as [|n|s]; simpl in *; try exact I.
    red; simpl. destruct (Z.eqb_spec n 0); [auto|discriminate].
Qed.

Lemma find_app_or {A : Type} (p : A -> bool) l1 l2 :
  find p (l1 ++ l2)%list =
  match find p l1 with Some x => Some x | None => find p l2 end.
Proof.
  induction l1 as [|a l1 IH]; simpl; [reflexivity|].
  destruct (p a); auto.
Qed.

Lemma last_holding_or_cons f it items default :
  last_holding_or f (it :: items) default =
  last_holding_or f items (if holds f it then field_of f it else default).
Proof.
  unfold last_holding_or; simpl. rewrite find_app_or.
  destruct (find (holds f) (rev items)); [reflexivity|].
  simpl. destruct (holds f it); reflexivity.
Qed.

Lemma last_expiry_or_cons it items default :
  last_expiry_or (it :: items) default =
  last_expiry_or items (if holds_expiry it then expiry_of it else default).
Proof.
  unfold last_expiry_or; simpl. rewrite find_app_or.
  destruct (find holds_expiry (rev items)); [reflexivity|].
  simpl. destruct (holds_expiry it); reflexivity.
Qed.

(** The loop over the records keeps, for each field, the value of the
    last record that has it. *)
Lemma scan_items_run items : forall a r e w,
  exists w',
    scan_items items (a, r, e) w =
      (Ret (last_holding_or "accessToken" items a,
            last_holding_or "refreshToken" items r,
            last_expiry_or items e), w')
    /\ log_only w w'.
Proof.
  induction items as [|[key data] items IH]; intros a r e w.
  - exists w; split; [reflexivity|apply log_only_refl].
  - rewrite !last_holding_or_cons, last_expiry_or_cons.
    unfold holds, holds_expiry, expiry_of, holds, field_of, dict_has,
      dict_get_default; simpl.
    destruct data; try (apply IH).
    run_step.
    destruct (dict_get "accessToken" d) as [va|];
      destruct (dict_get "refreshToken" d) as [vr|];
      destruct (dict_get "expiresAt" d) as [ve|];
      destruct (dict_get "expires_at" d) as [ve'|]; simpl;
      match goal with
      | |- exists w', scan_items _ ?acc ?w0 = _ /\ _ =>
          let a0 := fresh in let r0 := fresh in let e0 := fresh in
          destruct (IH (fst (fst acc)) (snd (fst acc)) (snd acc) w0)
            as (w' & Hrun & Hlog);
          exists w'; split; [exact Hrun|];
          eapply log_only_trans; [|exact Hlog]; repeat split
      end.
Qed.

Lemma get_current_tokens_unreachable w :
  db w = None ->
  exists w',
    get_current_tokens w = (Ret None, w') /\ log_only w w' /\
    log w' = GetTokensFailed OperationalError :: log w.
Proof.
  intros H. unfold get_current_tokens. run_step. rewrite H. simpl.
  eexists; split; [reflexivity|]. repeat split; auto.
Qed.

Lemma get_current_tokens_loadable w t :
  db w = Some t -> Forall loadable (select_auth_rows t) ->
  exists w',
    get_current_tokens w =
      (Ret (Some (mkTokenInfo
                    (last_holding "accessToken" (records (select_auth_rows t)))
                    (last_holding "refreshToken" (records (select_auth_rows t)))
                    (last_expiry (records (select_auth_rows t)))
                    (records (select_auth_rows t)))), w')
    /\ log_only w w'.
Proof.
  intros H L. unfold get_current_tokens.
  unfold try_except, bind at 1, sqlite3_connect. rewrite H.
  unfold bind at 1. rewrite (load_auth_data_loadable _ [] w L).
  fold (records (select_auth_rows t)).
  set (items := records (select_auth_rows t)).
  unfold bind at 1.
  set (w1 := snd (logging (FoundAuthEntries (Z.of_nat (List.length items))) w)).
  change (logging (FoundAuthEntries (Z.of_nat (List.length items))) w) with (Ret tt, w1).
  unfold bind at 1.
  destruct (scan_items_run items PNone PNone PNone w1) as (w' & Hrun & Hlog).
  rewrite Hrun. unfold ret.
  exists w'; split; [reflexivity|].
  eapply log_only_trans; [|exact Hlog]. subst w1; repeat split.
Qed.

(** [get_current_tokens] never raises and touches nothing but the log;
    it returns a dictionary only when the store was read and every
    column value was an accepted argument of [json.loads]. *)
Lemma get_current_tokens_frame w :
  exists r w',
    get_current_tokens w = (Ret r, w') /\ log_only w w' /\
    (forall ti, r = Some ti ->
       exists t, db w = Some t /\ Forall loadable (select_auth_rows t)).
Proof.
  destruct (db w) as [t|] eqn:H.
  - destruct (load_auth_data (select_auth_rows t) [] w) as [[d|e] w0] eqn:L.
    + pose proof (load_auth_data_ret _ _ _ _ _ L) as HL.
      destruct (get_current_tokens_loadable w t H HL) as (w' & Hrun & Hlog).
      eexists _, w'. split; [exact Hrun|]. split; [exact Hlog|intros; eauto].
    + pose proof (load_auth_data_world (select_auth_rows t) [] w) as W.
      rewrite L in W; simpl in W; subst w0.
      unfold get_current_tokens.
      unfold try_except, bind at 1, sqlite3_connect. rewrite H.
      unfold bind at 1. rewrite L.
      run_step. simpl.
      eexists None, _; split; [reflexivity|]. split; [repeat split|discriminate].
  - destruct (get_current_tokens_unreachable w H) as (w' & Hrun & Hlog & _).
    exists None, w'; split; [exact Hrun|]. split; [exact Hlog|discriminate].
Qed.

(** ** [check_token_expiry] *)

Lemma check_token_expiry_falsy v w :
  truthy v = false ->
  check_token_expiry v w = (Ret true, snd (logging ExpiryUnknown w)).
Proof.
  intros H. unfold check_token_expiry. rewrite H. reflexivity.
Qed.

Lemma in_range_outside t :
  (datetime_min <=? t) && (t <=? datetime_max) =
  negb ((t <? datetime_min) || (datetime_max <? t)).
Proof.
  destruct (Z.leb_spec datetime_min t), (Z.leb_spec t datetime_max),
    (Z.ltb_spec t datetime_min), (Z.ltb_spec datetime_max t);
    simpl; try lia; reflexivity.
Qed.

Lemma fromtimestamp_number v m e :
  as_number v = Some (m, e) ->
  fromtimestamp v =
    let t := round_half_even m (e + 6) in
    if (t <? datetime_min) || (datetime_max <? t) then Raise ValueError else Ret t.
Proof.
  unfold fromtimestamp, as_number.
  destruct v as [|b|n|[|neg|m' e']|s|l|d]; try discriminate; intros [= <- <-];
    unfold seconds_to_us.
  - rewrite in_range_outside. destruct b; reflexivity.
  - replace (n * 1000000) with (round_half_even n (0 + 6))
      by (unfold round_half_even; simpl; reflexivity).
    rewrite in_range_outside. cbv zeta.
    destruct ((_ <? _) || (_ <? _)); reflexivity.
  - rewrite in_range_outside. cbv zeta.
    destruct ((_ <? _) || (_ <? _)); reflexivity.
Qed.

Lemma gt_int_number v m e :
  as_number v = Some (m, e) ->
  gt_int v (10 ^ 12) =
    Ret (if e <? 0 then 10 ^ 12 * 10 ^ (- e) <? m else 10 ^ 12 <? m * 10 ^ e).
Proof.
  unfold as_number, gt_int.
  destruct v as [|b|n|[|neg|m' e']|s|l|d]; try discriminate; intros [= <- <-].
  - destruct b; reflexivity.
  - rewrite Z.gtb_ltb. change (0 <? 0) with false. cbv iota.
    rewrite Z.pow_0_r, Z.mul_1_r. reflexivity.
  - rewrite !Z.gtb_ltb.
    destruct (Z.leb_spec 0 e'), (Z.ltb_spec e' 0); try lia; reflexivity.
Qed.

Lemma round_half_even_shift m k : 0 <= k -> round_half_even m k = m * 10 ^ k.
Proof.
  intros H. unfold round_half_even.
  destruct (Z.leb_spec 0 k); [reflexivity|lia].
Qed.

(** Dividing a number above 10^12 by 1000 raises only when the instant
    is beyond the range of [datetime] anyway. *)
Lemma div_1000_number v m e :
  as_number v = Some (m, e) ->
  div_1000 v = Ret (PFloat (FDec m (e - 3))) \/
  (exists x, div_1000 v = Raise x) /\ e = 0 /\ 1000 * 2 ^ 1024 <= Z.abs m.
Proof.
  unfold as_number, div_1000.
  destruct v as [|b|n|[|neg|m' e']|s|l|d]; try discriminate; intros [= <- <-];
    auto.
  destruct (Z.ltb_spec (Z.abs n) (1000 * 2 ^ 1024)); [auto|].
  right; split; [eexists; reflexivity|]. split; [reflexivity|assumption].
Qed.

Lemma not_number_raises v :
  as_number v = None -> truthy v = true ->
  (exists x, gt_int v (10 ^ 12) = Raise x) \/
  exists b, gt_int v (10 ^ 12) = Ret b /\
    exists x, (if b then match div_1000 v with
                         | Ret s => fromtimestamp s
                         | Raise y => Raise y
                         end
               else fromtimestamp v) = Raise x.
Proof.
  destruct v as [|b|n|[|neg|m' e']|s|l|d]; simpl; try discriminate; intros _ _;
    try (left; eexists; reflexivity).
  - right. exists false. split; [reflexivity|]. eexists; reflexivity.
  - right. exists (negb neg). split; [reflexivity|].
    destruct neg; eexists; reflexivity.
Qed.

Ltac run_monad :=
  cbv beta iota zeta delta
    [negb bind lift ret raise try_except logging datetime_now any_exception
     sqlite3_connect execute_update commit requests_post].

Lemma check_token_expiry_run v w :
  truthy v = true ->
  exists w',
    check_token_expiry v w =
      (Ret match instant_of v with
           | Some t => t - clock w (ticks w) <? timedelta_days 10
           | None => true
           end, w')
    /\ untouched w w'
    /\ ticks w' = match instant_of v with
                  | Some _ => S (ticks w)
                  | None => ticks w
                  end.
Proof.
  intros T. unfold check_token_expiry. rewrite T.
  destruct (as_number v) as [[m e]|] eqn:N.
  - unfold instant_of. rewrite N. run_monad.
    rewrite (gt_int_number v m e N).
    destruct (if e <? 0 then _ else _) eqn:G.
    + destruct (div_1000_number v m e N) as [D|((x & D) & -> & B)].
      * rewrite D.
        rewrite (fromtimestamp_number (PFloat (FDec m (e - 3))) m (e - 3) eq_refl).
        cbv zeta. replace (e - 3 + 6) with (e + 3) by lia.
        destruct ((_ <? _) || (_ <? _)).
        -- eexists; split; [reflexivity|repeat split].
        -- eexists; split; [reflexivity|repeat split].
      * rewrite D.
        assert (datetime_max < round_half_even m (0 + 3)) as R.
        { rewrite round_half_even_shift by lia. change (10 ^ (0 + 3)) with 1000.
          assert (datetime_max < 2 ^ 1024) by (vm_compute; reflexivity).
          change (0 <? 0) with false in G. cbv iota in G.
          rewrite Z.pow_0_r, Z.mul_1_r in G. apply Z.ltb_lt in G.
          assert (0 < 10 ^ 12) by reflexivity. lia. }
        apply Z.ltb_lt in R. rewrite R, orb_true_r.
        eexists; split; [reflexivity|repeat split].
    + rewrite (fromtimestamp_number v m e N). cbv zeta.
      destruct ((_ <? _) || (_ <? _)).
      -- eexists; split; [reflexivity|repeat split].
      -- eexists; split; [reflexivity|repeat split].
  - assert (instant_of v = None) as -> by (unfold instant_of; rewrite N; reflexivity).
    run_monad.
    destruct (not_number_raises v N T) as [(x & G)|(b & G & x & F)].
    + rewrite G. eexists; split; [reflexivity|repeat split].
    + rewrite G. destruct b.
      * destruct (div_1000 v) as [s|y].
        -- rewrite F. eexists; split; [reflexivity|repeat split].
        -- eexists; split; [reflexivity|repeat split].
      * rewrite F. eexists; split; [reflexivity|repeat split].
Qed.
(** ** [refresh_access_token] *)

Lemma refresh_access_token_run rt w :
  exists w',
    refresh_access_token rt w =
      (Ret (refresh_result (http w (refresh_request rt))), w') /\
    db w' = db w /\ clock w' = clock w /\ http w' = http w /\
    ticks w' = ticks w /\ executed w' = executed w /\
    sent w' = refresh_request rt :: sent w /\
    log w' = refresh_logged (http w (refresh_request rt)) :: log w.
Proof.
  unfold refresh_access_token. run_monad.
  change (mkRequest (api_base ++ "/auth/refresh") _ _ 30) with (refresh_request rt).
  unfold refresh_result, refresh_logged.
  destruct (http w (refresh_request rt)) as [e|status_code text].
  - eexists; split; [reflexivity|]. repeat split.
  - destruct (status_code =? 200).
    + destruct (Json.loads text) as [v|e].
      * eexists; split; [reflexivity|]. repeat split.
      * eexists; split; [reflexivity|]. repeat split.
    + eexists; split; [reflexivity|]. repeat split.
Qed.

(** ** [update_token_in_db] *)

Lemma preview_token v : is_token v = true -> exists s, preview v = Ret s.
Proof.
  destruct v; simpl; try discriminate; intros _; unfold preview; simpl.
  - eexists; reflexivity.
  - destruct (negb (s =? EmptyString)%string); eexists; reflexivity.
Qed.

Lemma response_typed_clock w w' nd :
  clock w' = clock w -> response_typed w nd -> response_typed w' nd.
Proof. unfold response_typed. intros ->. auto. Qed.


Lemma delta_in_range now n :
  datetime_min <= now <= datetime_max ->
  datetime_min <= now + n * 1000000 <= datetime_max ->
  timedelta_seconds (PInt n) = Ret (n * 1000000) /\
  datetime_add now (n * 1000000) = Ret (now + n * 1000000).
Proof.
  intros H1 H2. unfold timedelta_seconds, datetime_add, seconds_to_us.
  unfold datetime_min, datetime_max, timedelta_min, timedelta_max in *.
  destruct (Z.leb_spec (-86399999913600000000) (n * 1000000)); [|lia].
  destruct (Z.leb_spec (n * 1000000) 86399999999999999999); [|lia].
  destruct (Z.leb_spec (-62135596800000000) (now + n * 1000000)); [|lia].
  destruct (Z.leb_spec (now + n * 1000000) 253402300799999999); [|lia].
  split; reflexivity.
Qed.

Lemma renewed_access_token nd now d old :
  dict_get "accessToken" d = Some old -> is_token old = true ->
  (forall a, dict_get "access_token" nd = Some a -> is_token a = true) ->
  exists a', dict_get "accessToken" (renewed nd now d) = Some a' /\
             is_token a' = true.
Proof.
  intros Hold Told Hnd. unfold renewed.
  assert (exists a', dict_get "accessToken"
            match dict_get "access_token" nd with
            | Some a => dict_set "accessToken" a d
            | None => d
            end = Some a' /\ is_token a' = true) as (a1 & H1 & T1).
  { destruct (dict_get "access_token" nd) as [a|] eqn:E.
    - exists a. split; [apply dict_get_set_eq|auto].
    - exists old; auto. }
  set (d1 := match dict_get "access_token" nd with
             | Some a => dict_set "accessToken" a d
             | None => d
             end) in *.
  assert (dict_get "accessToken"
            match dict_get "refresh_token" nd with
            | Some r => dict_set "refreshToken" r d1
            | None => d1
            end = Some a1) as H2.
  { destruct (dict_get "refresh_token" nd); [|exact H1].
    rewrite dict_get_set_neq; [exact H1|discriminate]. }
  set (d2 := match dict_get "refresh_token" nd with
             | Some r => dict_set "refreshToken" r d1
             | None => d1
             end) in *.
  exists a1. split; [|exact T1].
  destruct (dict_get "expires_in" nd) as [[]|]; try exact H2.
  rewrite dict_get_set_neq; [exact H2|discriminate].
Qed.

Lemma updatable_inv c :
  updatable c = true ->
  cell_truthy c = true /\
  exists d old, json_loads c = Ret (PDict d) /\ dict_get "accessToken" d = Some old.
Proof.
  unfold updatable, dict_has.
  destruct (cell_truthy c); [|discriminate].
  destruct (json_loads c) as [[]|]; try discriminate.
  destruct (dict_get "accessToken" d) as [old|] eqn:E; [|discriminate].
  intros _. split; [reflexivity|]. exists d, old. auto.
Qed.

(** One round of the loop on a row the persist step skips. *)
Lemma update_row_skip nd k c tx w :
  updatable c = false -> loadable (k, c) ->
  try_except (update_row nd k c tx) is_JSONDecodeError (fun _ => ret None) w =
    (Ret None, w).
Proof.
  unfold updatable, dict_has, loadable, update_row. simpl snd. intros U L.
  run_monad.
  destruct (cell_truthy c) eqn:T.
  - destruct c as [|n|s]; simpl in *; try discriminate.
    + subst n; discriminate.
    + destruct (Json.loads s) as [v|e] eqn:E.
      * destruct v; try reflexivity.
        destruct (dict_get "accessToken" d); [discriminate|reflexivity].
      * apply loads_raises in E; subst e. reflexivity.
  - reflexivity.
Qed.

(** One round of the loop on a row the persist step rewrites. *)
Lemma update_row_hit nd k c tx w :
  updatable c = true -> record_typed (k, c) -> response_typed w nd ->
  exists d w',
    json_loads c = Ret (PDict d) /\
    try_except (update_row (PDict nd) k c tx) is_JSONDecodeError
      (fun _ => ret None) w =
      (Ret (Some (sql_update
                    (Json.dumps (PDict (renewed nd (clock w (ticks w)) d))) k tx)),
       w') /\
    db w' = db w /\ clock w' = clock w /\ http w' = http w /\
    sent w' = sent w /\
    List.length (executed w') = S (List.length (executed w)).
Proof.
  intros U RT (Ha & He).
  destruct (updatable_inv c U) as (T & d & old & L & G).
  pose proof (RT d old L G) as Told.
  destruct (preview_token old Told) as (s_old & Pold).
  destruct (renewed_access_token nd (clock w (ticks w)) d old G Told Ha)
    as (a' & G' & T').
  destruct (preview_token a' T') as (s_new & Pnew).
  exists d. unfold update_row. rewrite T, L. run_monad. rewrite G, Pold.
  unfold renewed in *.
  assert (dict_set "accessToken" (dict_get_default "access_token" old nd) d =
          match dict_get "access_token" nd with
          | Some a => dict_set "accessToken" a d
          | None => d
          end) as ->.
  { unfold dict_get_default. destruct (dict_get "access_token" nd); [reflexivity|].
    apply dict_set_same; exact G. }
  fold dict in *.
  set (d1 := match dict_get "access_token" nd with
             | Some a => dict_set "accessToken" a d
             | None => d
             end) in *.
  set (d2 := match dict_get "refresh_token" nd with
             | Some r => dict_set "refreshToken" r d1
             | None => d1
             end) in *.
  destruct (dict_get "expires_in" nd) as [v|] eqn:E.
  - destruct (He v eq_refl) as (n & -> & R).
    destruct (R (ticks w)) as (R1 & R2).
    destruct (delta_in_range _ _ R1 R2) as (D1 & D2).
    rewrite D1, D2. unfold timestamp_ms.
    unfold dict_get_default. rewrite G', Pnew.
    eexists; split; [reflexivity|]. repeat split.
  - unfold dict_get_default. rewrite G', Pnew.
    eexists; split; [reflexivity|]. repeat split.
Qed.

Lemma sql_update_keys v k tx : map fst (sql_update v k tx) = map fst tx.
Proof.
  unfold sql_update. rewrite map_map. apply map_ext.
  intros [k' c]; simpl. destruct (k' =? k)%string; reflexivity.
Qed.

Lemma NoDup_fst_inj {A B : Type} (l : list (A * B)) k a b :
  NoDup (map fst l) -> In (k, a) l -> In (k, b) l -> a = b.
Proof.
  induction l as [|[k' c] l IH]; simpl; [tauto|].
  intros N [Ha|Ha] [Hb|Hb]; inversion N as [|? ? Hn Hl]; subst.
  - congruence.
  - inversion Ha; subst. exfalso; apply Hn.
    apply (in_map fst) in Hb; exact Hb.
  - inversion Hb; subst. exfalso; apply Hn.
    apply (in_map fst) in Ha; exact Ha.
  - eauto.
Qed.

Lemma Forall2_map_left {A B C : Type} (P : B -> C -> Prop) (f : A -> B) l l' :
  Forall2 P (map f l) l' -> Forall2 (fun a b => P (f a) b) l l'.
Proof.
  revert l'; induction l as [|a l IH]; intros l' H; inversion H; subst;
    constructor; auto.
Qed.

Lemma Forall2_impl_in {A B : Type} (P Q : A -> B -> Prop) l l' :
  Forall2 P l l' -> (forall a b, In a l -> P a b -> Q a b) -> Forall2 Q l l'.
Proof.
  induction 1 as [|a b l l' H H2 IH]; intros F; constructor.
  - apply F; [left; reflexivity|exact H].
  - apply IH. intros a' b' I; apply F; right; exact I.
Qed.

Lemma Forall2_same {A : Type} (P : A -> A -> Prop) l :
  (forall a, P a a) -> Forall2 P l l.
Proof. intros H; induction l; constructor; auto. Qed.

Lemma not_in_existsb k ks : ~ In k ks -> existsb (String.eqb k) ks = false.
Proof.
  intros N. destruct (existsb (String.eqb k) ks) eqn:E; [|reflexivity].
  apply existsb_exists in E as (x & I & Q). apply String.eqb_eq in Q; subst.
  contradiction.
Qed.

(** The loop of the persist step: every selected row whose value decodes
    to a mapping with an [accessToken] is rewritten, the others are left
    as they are, and the count is the number of rows rewritten. *)
Lemma update_rows_run nd : forall rows tx count w,
  NoDup (map fst tx) -> NoDup (map fst rows) -> incl rows tx ->
  Forall loadable rows -> Forall record_typed rows -> response_typed w nd ->
  exists tx' w',
    update_rows (PDict nd) rows tx count w =
      (Ret (tx', count +
                 Z.of_nat (List.length (filter (fun r => updatable (snd r)) rows))),
       w') /\
    Forall2 (persisted_if (fun k => existsb (String.eqb k) (map fst rows)) w nd)
      tx tx' /\
    db w' = db w /\ clock w' = clock w /\ http w' = http w /\
    sent w' = sent w /\
    List.length (executed w') =
      (List.length (executed w) +
       List.length (filter (fun r => updatable (snd r)) rows))%nat.
Proof.
  induction rows as [|[k c] rows IH]; intros tx count w Ntx Nrows Incl Hl Ht Hr.
  - exists tx, w. simpl. split; [unfold ret; rewrite Z.add_0_r; reflexivity|].
    split; [|repeat split; lia].
    apply Forall2_same. intros a; split; reflexivity.
  - inversion Nrows as [|? ? Nk Nrest]; subst.
    inversion Hl as [|? ? Hl1 Hl2]; subst.
    inversion Ht as [|? ? Ht1 Ht2]; subst.
    assert (In (k, c) tx) as Ikc by (apply Incl; left; reflexivity).
    cbn [update_rows]. unfold bind at 1.
    destruct (updatable c) eqn:U.
    + destruct (update_row_hit nd k c tx w U Ht1 Hr)
        as (d & w1 & L & Hrun & W1 & W2 & W3 & W4 & W5).
      rewrite Hrun.
      set (v := Json.dumps (PDict (renewed nd (clock w (ticks w)) d))) in *.
      destruct (IH (sql_update v k tx) (count + 1) w1) as
        (tx' & w' & Hrun' & F & V1 & V2 & V3 & V4 & V5); auto.
      * rewrite sql_update_keys; exact Ntx.
      * intros [k' c'] I.
        assert (In (k', c') tx) as I' by (apply Incl; right; exact I).
        unfold sql_update. apply in_map_iff. exists (k', c'); split; [|exact I'].
        simpl. destruct (String.eqb_spec k' k); [|reflexivity].
        subst k'. exfalso; apply Nk. apply (in_map fst) in I; exact I.
      * eapply response_typed_clock; eauto.
      * exists tx', w'. rewrite Hrun'. cbn [filter snd]. rewrite U. cbn [List.length].
        split; [apply f_equal2; [|reflexivity]; apply f_equal; apply f_equal; lia|].
        split; [|repeat split; try congruence; lia].
        apply Forall2_map_left in F.
        eapply Forall2_impl_in; [exact F|].
        intros [ka ca] b Ia (P1 & P2). cbn [fst snd] in *.
        destruct (String.eqb_spec ka k) as [->|Nka].
        -- cbn [fst snd] in *.
           assert (ca = c) as -> by exact (NoDup_fst_inj tx k ca c Ntx Ia Ikc).
           rewrite (not_in_existsb k (map fst rows) Nk) in P2. cbn [andb] in P2.
           unfold persisted_if. cbn [fst snd map existsb].
           split; [exact P1|].
           rewrite String.eqb_refl, U. cbn [orb andb].
           exists d, (ticks w). split; [exact L|exact P2].
        -- cbn [fst snd] in *.
           unfold persisted_if. cbn [fst snd map existsb].
           split; [exact P1|].
           destruct (String.eqb_spec ka k) as [->|_]; [contradiction|].
           cbn [orb].
           destruct (existsb (String.eqb ka) (map fst rows) && updatable ca);
             [|exact P2].
           destruct P2 as (d' & i & P2 & P3). exists d', i.
           rewrite <- W2. auto.
    + rewrite (update_row_skip (PDict nd) k c tx w U Hl1).
      destruct (IH tx count w) as
        (tx' & w' & Hrun' & F & V1 & V2 & V3 & V4 & V5); auto.
      * intros r I; apply Incl; right; exact I.
      * exists tx', w'. rewrite Hrun'. cbn [filter snd]. rewrite U.
        split; [reflexivity|]. split; [|repeat split; auto].
        eapply Forall2_impl_in; [exact F|].
        intros [ka ca] b Ia (P1 & P2). cbn [fst snd] in *.
        unfold persisted_if. cbn [fst snd map existsb].
        split; [exact P1|].
        destruct (String.eqb_spec ka k) as [->|Nka]; [|exact P2].
        assert (ca = c) as -> by exact (NoDup_fst_inj tx k ca c Ntx Ia Ikc).
        rewrite U in *. rewrite andb_false_r in *. exact P2.
Qed.

Lemma NoDup_keys_filter {A B : Type} (p : A * B -> bool) (l : list (A * B)) :
  NoDup (map fst l) -> NoDup (map fst (filter p l)).
Proof.
  induction l as [|a l IH]; simpl; intros N; [constructor|].
  inversion N as [|? ? Hn Hl]; subst.
  destruct (p a); simpl; [|auto].
  constructor; [|auto].
  intros I. apply Hn. apply in_map_iff in I as (x & E & I).
  apply filter_In in I as (I & _). rewrite <- E. apply in_map; exact I.
Qed.

Lemma selected_keys t a :
  In a t ->
  existsb (String.eqb (fst a)) (map fst (select_auth_rows t)) = key_matches (fst a).
Proof.
  intros I. unfold select_auth_rows.
  destruct (key_matches (fst a)) eqn:K.
  - apply existsb_exists. exists (fst a). split; [|apply String.eqb_refl].
    apply in_map. apply filter_In. auto.
  - apply not_in_existsb. intros J.
    apply in_map_iff in J as (x & E & J). apply filter_In in J as (_ & J).
    rewrite E in J. congruence.
Qed.

Lemma count_positive {A : Type} (p : A -> bool) l :
  (0 + Z.of_nat (List.length (filter p l)) >? 0) = existsb p l.
Proof.
  induction l as [|a l IH]; simpl; [reflexivity|].
  destruct (p a); simpl; [|exact IH].
  rewrite Z.gtb_ltb. apply Z.ltb_lt. lia.
Qed.

(** The persist step on a store whose keys are distinct and whose
    records and refresh response are typed as in the data model. *)
Lemma update_token_in_db_run nd w t :
  db w = Some t -> NoDup (map fst t) ->
  Forall loadable (select_auth_rows t) ->
  Forall record_typed (select_auth_rows t) ->
  response_typed w nd ->
  exists t' w',
    update_token_in_db (PDict nd) w =
      (Ret (existsb (fun r => updatable (snd r)) (select_auth_rows t)), w') /\
    db w' = Some t' /\ Forall2 (persisted w nd) t t' /\
    clock w' = clock w /\ http w' = http w /\ sent w' = sent w /\
    List.length (executed w') =
      (List.length (executed w) +
       List.length (filter (fun r => updatable (snd r)) (select_auth_rows t)))%nat.
Proof.
  intros H N Hl Ht Hr.
  destruct (update_rows_run nd (select_auth_rows t) t 0 w) as
    (t' & w1 & Hrun & F & W1 & W2 & W3 & W4 & W5); auto.
  - apply NoDup_keys_filter; exact N.
  - intros r I. apply filter_In in I as (I & _); exact I.
  - unfold update_token_in_db.
    unfold try_except, bind at 1, sqlite3_connect. rewrite H.
    unfold bind at 1. rewrite Hrun. run_monad.
    rewrite count_positive.
    eexists t', _. split; [reflexivity|]. cbn [db clock http sent executed].
    split; [reflexivity|]. split; [|auto].
    eapply Forall2_impl_in; [exact F|].
    intros a b I (P1 & P2). unfold persisted, persisted_if.
    rewrite (selected_keys t a I) in P2. split; assumption.
Qed.

Lemma update_token_in_db_total nd w :
  exists u w', update_token_in_db nd w = (Ret u, w').
Proof.
  unfold update_token_in_db, try_except.
  match goal with |- context [let (_, _) := ?m w in _] => destruct (m w) as [[u|e] w'] end.
  - eauto.
  - unfold any_exception. run_monad. eauto.
Qed.

Lemma check_token_expiry_frame v w :
  exists b w', check_token_expiry v w = (Ret b, w') /\ untouched w w'.
Proof.
  destruct (truthy v) eqn:T.
  - destruct (check_token_expiry_run v w T) as (w' & E & U & _). eauto.
  - rewrite (check_token_expiry_falsy v w T). eexists _, _. split; [reflexivity|].
    repeat split.
Qed.

(** ** [refresh_if_needed]

    The run of [refresh_if_needed], step by step, with the worlds
    between the steps. *)
Lemma refresh_if_needed_trace w :
  exists r1 w1,
    get_current_tokens (snd (logging CheckStart w)) = (Ret r1, w1) /\
    log_only w w1 /\
    match r1 with
    | None =>
        db w = None \/ (exists t, db w = Some t /\
                                 ~ Forall loadable (select_auth_rows t))
    | Some ti =>
        exists t, db w = Some t /\ Forall loadable (select_auth_rows t) /\
          ti = mkTokenInfo
                 (last_holding "accessToken" (records (select_auth_rows t)))
                 (last_holding "refreshToken" (records (select_auth_rows t)))
                 (last_expiry (records (select_auth_rows t)))
                 (records (select_auth_rows t))
    end /\
    match r1 with
    | None => refresh_if_needed w = (Ret false, snd (logging NoTokenInfo w1))
    | Some ti =>
        if truthy (refresh_token ti) then
          exists b w2,
            check_token_expiry (expires_at ti) w1 = (Ret b, w2) /\
            untouched w1 w2 /\
            if b then
              exists w3,
                let new_token_data :=
                  refresh_result (http w (refresh_request (refresh_token ti))) in
                refresh_access_token (refresh_token ti)
                  (snd (logging RefreshStart w2)) = (Ret new_token_data, w3) /\
                db w3 = db w /\ clock w3 = clock w /\ http w3 = http w /\
                ticks w3 = ticks w2 /\ executed w3 = executed w /\
                sent w3 = refresh_request (refresh_token ti) :: sent w /\
                if truthy new_token_data then
                  exists u w4,
                    update_token_in_db new_token_data w3 = (Ret u, w4) /\
                    refresh_if_needed w =
                      (Ret u,
                       snd (logging (if u then RefreshAndUpdateOk
                                     else RefreshOkUpdateFailed) w4))
                else
                  refresh_if_needed w = (Ret false, snd (logging RefreshFailed w3))
            else
              refresh_if_needed w = (Ret true, snd (logging StillFresh w2))
        else
          refresh_if_needed w = (Ret false, snd (logging NoRefreshToken w1))
    end.
Proof.
  set (w0 := snd (logging CheckStart w)).
  assert (log_only w w0) as F0 by (repeat split).
  destruct (get_current_tokens_frame w0) as (r1 & w1 & E1 & F1 & G1).
  assert (log_only w w1) as F01 by exact (log_only_trans _ _ _ F0 F1).
  assert (db w0 = db w) as D0 by reflexivity.
  exists r1, w1. split; [exact E1|]. split; [exact F01|].
  assert (refresh_if_needed w =
          match r1 with
          | None => (Ret false, snd (logging NoTokenInfo w1))
          | Some ti =>
              if truthy (refresh_token ti) then
                let (rb, w2) := check_token_expiry (expires_at ti) w1 in
                match rb with
                | Ret b =>
                    if b then
                      let (rn, w3) :=
                        refresh_access_token (refresh_token ti)
                          (snd (logging RefreshStart w2)) in
                      match rn with
                      | Ret new_token_data =>
                          if truthy new_token_data then
                            let (ru, w4) := update_token_in_db new_token_data w3 in
                            match ru with
                            | Ret u =>
                                (Ret u,
                                 snd (logging (if u then RefreshAndUpdateOk
                                               else RefreshOkUpdateFailed) w4))
                            | Raise e => (Raise e, w4)
                            end
                          else (Ret false, snd (logging RefreshFailed w3))
                      | Raise e => (Raise e, w3)
                      end
                    else (Ret true, snd (logging StillFresh w2))
                | Raise e => (Raise e, w2)
                end
              else (Ret false, snd (logging NoRefreshToken w1))
          end) as Hrun.
  { unfold refresh_if_needed. unfold bind at 1.
    change (logging CheckStart w) with (Ret tt, w0). cbv iota.
    unfold bind at 1. rewrite E1.
    destruct r1 as [ti|]; [|reflexivity].
    destruct (truthy (refresh_token ti)); [|reflexivity].
    cbn [negb]. cbv iota. unfold bind at 1.
    destruct (check_token_expiry (expires_at ti) w1) as [[[|]|e] w2];
      try reflexivity.
    cbn [negb]. cbv iota. unfold bind at 1.
    change (logging RefreshStart w2) with (Ret tt, snd (logging RefreshStart w2)).
    cbv iota. unfold bind at 1.
    destruct (refresh_access_token (refresh_token ti) _) as [[nd|e] w3];
      try reflexivity.
    destruct (truthy nd); [|reflexivity].
    cbn [negb]. cbv iota. unfold bind at 1.
    destruct (update_token_in_db nd w3) as [[[|]|e] w4]; reflexivity. }
  split.
  - destruct r1 as [ti|].
    + destruct (G1 ti eq_refl) as (t & Ht & HL). rewrite D0 in Ht.
      exists t. split; [exact Ht|]. split; [exact HL|].
      destruct (get_current_tokens_loadable w0 t Ht HL) as (w' & E' & _).
      rewrite E1 in E'. congruence.
    + destruct (db w) as [t|] eqn:Ht; [right|left; reflexivity].
      exists t. split; [reflexivity|]. intros HL.
      destruct (get_current_tokens_loadable w0 t Ht HL) as (w' & E' & _).
      rewrite E1 in E'. discriminate.
  - rewrite Hrun. destruct r1 as [ti|]; [|reflexivity].
    destruct (truthy (refresh_token ti)); [|reflexivity].
    destruct (check_token_expiry_frame (expires_at ti) w1) as (b & w2 & E2 & F2).
    rewrite E2. exists b, w2. split; [reflexivity|]. split; [exact F2|].
    destruct b; [|reflexivity].
    destruct (refresh_access_token_run (refresh_token ti)
                (snd (logging RefreshStart w2)))
      as (w3 & E3 & V1 & V2 & V3 & V4 & V5 & V6 & V7).
    destruct F01 as (A1 & A2 & A3 & A4 & A5 & A6).
    destruct F2 as (B1 & B2 & B3 & B4 & B5).
    assert (http (snd (logging RefreshStart w2)) = http w) as Hh
      by (cbn [snd logging http]; congruence).
    rewrite Hh in E3. rewrite E3.
    exists w3. cbv zeta. split; [reflexivity|].
    cbn [snd logging db clock http ticks sent executed] in V1, V2, V3, V4, V5, V6.
    repeat (split; [congruence|]).
    destruct (truthy _); [|reflexivity].
    destruct (update_token_in_db_total
                (refresh_result (http w (refresh_request (refresh_token ti)))) w3)
      as (u & w4 & E4).
    rewrite E4. exists u, w4. split; reflexivity.
Qed.
(** * The specification, sentence by sentence *)

(** ** Expiry evaluation *)








(** C10. [check_token_expiry] answers that a refresh is needed, and
    raises nothing, for every present [expires_at] that does not denote
    an instant: a string, a list, a mapping, a NaN or an infinity, a
    number outside the range of [datetime]. *)
Theorem unreadable_expiry_refreshes (v : pyobj) (w : world) :
  instant_of v = None ->
  fst (check_token_expiry v w) = Ret true /\
  untouched w (snd (check_token_expiry v w)).
Proof.
  intros I. destruct (truthy v) eqn:T.
  - destruct (check_token_expiry_run v w T) as (w' & E & U & _).
    rewrite E, I. split; [reflexivity|exact U].
  - rewrite (check_token_expiry_falsy v w T). split; [reflexivity|repeat split].
Qed.

Lemma unreadable_expiry_refreshes_witness :
  let w := Examples.world_of (Some Examples.one_record) Examples.endpoint_ok in
  instant_of (PStr "next week") = None /\
  fst (check_token_expiry (PStr "next week") w) = Ret true.
Proof.
  intros w. split; [reflexivity|].
  apply (unreadable_expiry_refreshes (PStr "next week") w). reflexivity.
Defined.

(** What does not denote an instant. *)
Lemma no_instant_for_other_types :
  (forall s, instant_of (PStr s) = None) /\
  (forall l, instant_of (PList l) = None) /\
  (forall d, instant_of (PDict d) = None) /\
  instant_of (PFloat FNan) = None /\
  (forall negative, instant_of (PFloat (FInf negative)) = None).
Proof. repeat split. Qed.

(** ** The refresh client *)

(** C7, as the code has it.  [refresh_access_token] issues exactly one
    request and writes nothing.  It hands back the decoded body exactly
    when the status is 200 and the body is JSON, whatever the JSON holds;
    otherwise it hands back [None], and the status code and the body, or
    the exception, go to the log only. *)
Theorem refresh_client_contract (rt : pyobj) (w : world) :
  let r := refresh_access_token rt w in
  let req := refresh_request rt in
  sent (snd r) = req :: sent w /\
  db (snd r) = db w /\ executed (snd r) = executed w /\
  (forall text v,
     http w req = HttpResponse 200 text -> Json.loads text = Ret v ->
     fst r = Ret v /\ last_logged (snd r) = Some RefreshCallOk) /\
  (forall text e,
     http w req = HttpResponse 200 text -> Json.loads text = Raise e ->
     fst r = Ret PNone /\ last_logged (snd r) = Some (RefreshCallError e)) /\
  (forall status_code text,
     http w req = HttpResponse status_code text -> status_code <> 200 ->
     fst r = Ret PNone /\
     last_logged (snd r) = Some (RefreshCallStatus status_code text)) /\
  (forall e,
     http w req = HttpError e ->
     fst r = Ret PNone /\ last_logged (snd r) = Some (RefreshCallError e)).
Proof.
  intros r req. subst r req.
  destruct (refresh_access_token_run rt w)
    as (w' & E & V1 & V2 & V3 & V4 & V5 & V6 & V7).
  rewrite E. cbn [fst snd]. unfold last_logged. rewrite V7. cbn [hd_error].
  split; [exact V6|]. split; [exact V1|]. split; [exact V5|].
  unfold refresh_result, refresh_logged.
  split; [|split; [|split]].
  - intros text v H L. rewrite H. change (200 =? 200) with true. cbv iota.
    rewrite L. split; reflexivity.
  - intros text e H L. rewrite H. change (200 =? 200) with true. cbv iota.
    rewrite L. split; reflexivity.
  - intros status_code text H N. rewrite H.
    destruct (Z.eqb_spec status_code 200); [contradiction|]. split; reflexivity.
  - intros e H. rewrite H. split; reflexivity.
Qed.

Lemma refresh_client_contract_witness :
  let w := Examples.world_of (Some Examples.one_record) Examples.endpoint_401 in
  let r := refresh_access_token (PStr "R1") w in
  fst r = Ret PNone /\
  last_logged (snd r) =
    Some (RefreshCallStatus 401 (Examples.dq "{'error': 'unauthorized'}")) /\
  List.length (sent (snd r)) = 1%nat.
Proof.
  intros w r.
  destruct (refresh_client_contract (PStr "R1") w)
    as (S1 & _ & _ & _ & _ & A & _).
  destruct (A 401 (Examples.dq "{'error': 'unauthorized'}") eq_refl)
    as (A1 & A2); [discriminate|].
  split; [exact A1|]. split; [exact A2|].
  subst r. rewrite S1. reflexivity.
Defined.

(** C7, as stated, fails: a 200 response whose body has no
    [access_token] is handed back as a result, and the whole pass then
    succeeds. *)
Lemma refresh_accepts_body_without_access_token :
  let w := Examples.world_of (Some Examples.one_record)
             Examples.endpoint_no_access_token in
  let r := refresh_access_token (PStr "R1") w in
  http w (refresh_request (PStr "R1")) =
    HttpResponse 200 (Examples.dq "{'foo': 'bar'}") /\
  has_access_token (Examples.dq "{'foo': 'bar'}") = false /\
  fst r = Ret (PDict [("foo", PStr "bar")]) /\
  fst (refresh_if_needed w) = Ret true.
Proof. vm_compute. repeat split. Qed.

(** ** The JWT codec *)

Import Jwt.

(** C8, as the code has it.  A token that does not split into exactly
    three parts yields the fixed not-a-JWT message.  For a token in
    three parts, a failure of the base64 step, of the UTF-8 step or of
    the JSON step yields the same decode-failed message, built from the
    exception; whatever JSON value the payload decodes to, a mapping or
    not, is handed back without an error. *)
Theorem decode_outcomes (token : string) :
  (List.length (split "."%char token) <> 3%nat ->
   decode_jwt_payload token = (PNone, Some NotValidJwtFormat)) /\
  (forall h p s, split "."%char token = [h; p; s] ->
     (forall e, Base64.urlsafe_b64decode (add_padding p) = Raise e ->
        decode_jwt_payload token = (PNone, Some (DecodeFailed e))) /\
     (forall bytes e,
        Base64.urlsafe_b64decode (add_padding p) = Ret bytes ->
        Base64.decode_utf8 bytes = Raise e ->
        decode_jwt_payload token = (PNone, Some (DecodeFailed e))) /\
     (forall bytes text e,
        Base64.urlsafe_b64decode (add_padding p) = Ret bytes ->
        Base64.decode_utf8 bytes = Ret text ->
        Json.loads text = Raise e ->
        e = JSONDecodeError /\
        decode_jwt_payload token = (PNone, Some (DecodeFailed JSONDecodeError))) /\
     (forall bytes text v,
        Base64.urlsafe_b64decode (add_padding p) = Ret bytes ->
        Base64.decode_utf8 bytes = Ret text ->
        Json.loads text = Ret v ->
        decode_jwt_payload token = (v, None))).
Proof.
  unfold decode_jwt_payload. split.
  - intros N.
    destruct (split "."%char token) as [|a [|b [|c [|d l]]]]; try reflexivity.
    exfalso; apply N; reflexivity.
  - intros h p s ->. repeat split.
    + intros e ->. reflexivity.
    + intros bytes e -> ->. reflexivity.
    + eapply loads_raises; eauto.
    + intros. subst.
      match goal with H : Json.loads _ = Raise _ |- _ =>
        pose proof (loads_raises _ _ H); subst end.
      match goal with
      | H1 : Base64.urlsafe_b64decode _ = _, H2 : Base64.decode_utf8 _ = _,
        H3 : Json.loads _ = _ |- _ => rewrite H1, H2, H3
      end. reflexivity.
    + intros bytes text v -> -> ->. reflexivity.
Qed.

Lemma decode_outcomes_witness :
  decode_jwt_payload "h.p" = (PNone, Some NotValidJwtFormat) /\
  decode_jwt_payload "h.YWJj.s" = (PNone, Some (DecodeFailed JSONDecodeError)) /\
  decode_jwt_payload "h.b.s" = (PNone, Some (DecodeFailed BinasciiError)).
Proof.
  split; [|split].
  - apply (decode_outcomes "h.p"). vm_compute. discriminate.
  - destruct (decode_outcomes "h.YWJj.s") as (_ & A).
    destruct (A "h" "YWJj" "s" eq_refl) as (_ & _ & B & _).
    apply (B "abc" "abc" JSONDecodeError); reflexivity.
  - destruct (decode_outcomes "h.b.s") as (_ & A).
    destruct (A "h" "b" "s" eq_refl) as (B & _).
    apply B. reflexivity.
Defined.

(** C8, as stated, fails: the payload of this three-part token decodes
    to the bytes of an empty JSON array, which is not a JSON object, and
    the array is handed back with no error. *)
Lemma array_payload_is_accepted :
  split "."%char Examples.token_array = ["h"; "W10"; "s"] /\
  Base64.urlsafe_b64decode (add_padding "W10") = Ret "[]" /\
  Json.loads "[]" = Ret (PList []) /\
  decode_jwt_payload Examples.token_array = (PList [], None).
Proof. vm_compute. repeat split. Qed.

(** The padding step never appends nothing: it appends one to four pad
    characters, four of them when the length is already a multiple of
    four. *)
Lemma add_padding_count (payload : string) :
  exists n, (1 <= n <= 4)%nat /\
    add_padding payload = payload ++ str_repeat "="%char n /\
    (py_len payload mod 4 = 0 -> n = 4%nat).
Proof.
  unfold add_padding.
  pose proof (Z.mod_pos_bound (py_len payload) 4 ltac:(lia)) as B.
  exists (Z.to_nat (4 - py_len payload mod 4)).
  split; [lia|]. split; [reflexivity|]. intros ->. reflexivity.
Qed.

(** Pad characters met between two quads are skipped: after a run of
    alphabet characters whose length is a multiple of four, four pad
    characters change nothing to what is decoded. *)
Lemma a2b_base64_alphabet (p : string) : forall quad_pos leftchar pads out,
  0 <= quad_pos < 4 ->
  (forall c, In c (list_ascii_of_string p) ->
     c <> "="%char /\ Base64.b64_value c <> None) ->
  exists leftchar' pads' out',
    forall rest,
      Base64.a2b_base64 (p ++ rest) quad_pos leftchar pads out =
      Base64.a2b_base64 rest ((quad_pos + Z.of_nat (String.length p)) mod 4)
        leftchar' pads' out'.
Proof.
  induction p as [|c p IH]; intros quad_pos leftchar pads out Q A.
  - exists leftchar, pads, out. intros rest. cbn [String.length append].
    rewrite Z.add_0_r, Z.mod_small by lia. reflexivity.
  - destruct (A c (or_introl eq_refl)) as (N1 & N2).
    assert (forall c', In c' (list_ascii_of_string p) ->
              c' <> "="%char /\ Base64.b64_value c' <> None) as A'
      by (intros c' I; apply A; right; exact I).
    cbn [append Base64.a2b_base64 String.length].
    destruct (Ascii.eqb_spec c "="%char); [contradiction|].
    destruct (Base64.b64_value c) as [v|]; [|contradiction].
    assert (forall q l o,
              0 <= q < 4 -> q = (quad_pos + 1) mod 4 ->
              exists leftchar' pads' out',
                forall rest,
                  Base64.a2b_base64 (p ++ rest) q l 0 o =
                  Base64.a2b_base64 rest
                    ((quad_pos + Z.of_nat (S (String.length p))) mod 4)
                    leftchar' pads' out') as Step.
    { intros q l o Hq Eq. destruct (IH q l 0 o Hq A') as (l' & p' & o' & E).
      exists l', p', o'. intros rest. rewrite E. f_equal.
      rewrite Eq, Nat2Z.inj_succ. rewrite Zplus_mod_idemp_l. f_equal. lia. }
    destruct (Z.eqb_spec quad_pos 0) as [->|]; [apply Step; [lia|reflexivity]|].
    destruct (Z.eqb_spec quad_pos 1) as [->|]; [apply Step; [lia|reflexivity]|].
    destruct (Z.eqb_spec quad_pos 2) as [->|]; [apply Step; [lia|reflexivity]|].
    assert (quad_pos = 3) as -> by lia. apply Step; [lia|reflexivity].
Qed.

Lemma excess_padding_is_ignored (p : string) :
  (forall c, In c (list_ascii_of_string p) ->
     c <> "="%char /\ Base64.b64_value c <> None) ->
  Z.of_nat (String.length p) mod 4 = 0 ->
  Base64.a2b_base64 (p ++ "====") 0 0 0 EmptyString =
  Base64.a2b_base64 p 0 0 0 EmptyString.
Proof.
  intros A L.
  destruct (a2b_base64_alphabet p 0 0 0 EmptyString ltac:(lia) A)
    as (l' & p' & o' & E).
  rewrite (E "====").
  replace p with (p ++ EmptyString) at 2.
  - rewrite (E EmptyString). rewrite Z.add_0_l, L. reflexivity.
  - clear. induction p; simpl; congruence.
Qed.

(** C9.  The payload of this token is twelve characters long, a
    multiple of four; the code appends four pad characters to it where
    none is needed.  The decoder ignores them, and the claims come out
    as encoded. *)
Theorem padding_on_multiple_of_four :
  split "."%char Examples.token_len12 = ["h"; "eyJhIjoxMjN9"; "s"] /\
  py_len "eyJhIjoxMjN9" = 12 /\
  add_padding "eyJhIjoxMjN9" = "eyJhIjoxMjN9====" /\
  decode_jwt_payload Examples.token_len12 = (PDict [("a", PInt 123)], None).
Proof. vm_compute. repeat split. Qed.

(** ** The scan *)

(** C1, as the code has it.  When the store can be read, the token
    state takes for [accessToken] and for [refreshToken] the value of the
    last record, in enumeration order, that has the field, a null value
    included; and for the expiry the value the last record with
    [expiresAt] or [expires_at] gives, [expiresAt] first. *)
Theorem scan_last_match_wins (w : world) (t : table) :
  db w = Some t -> Forall loadable (select_auth_rows t) ->
  let items := records (select_auth_rows t) in
  fst (get_current_tokens w) =
    Ret (Some (mkTokenInfo (last_holding "accessToken" items)
                 (last_holding "refreshToken" items)
                 (last_expiry items) items)).
Proof.
  intros H L items.
  destruct (get_current_tokens_loadable w t H L) as (w' & E & _).
  rewrite E. reflexivity.
Qed.

Lemma scan_last_match_wins_witness :
  let w := Examples.world_of (Some Examples.two_records) Examples.endpoint_ok in
  fst (get_current_tokens w) =
    Ret (Some (mkTokenInfo (PStr "A2") (PStr "R2") (PInt 1800000000000)
                 (records (select_auth_rows Examples.two_records)))).
Proof.
  intros w.
  apply (scan_last_match_wins w Examples.two_records).
  - reflexivity.
  - repeat constructor.
Defined.

(** C1, as stated, fails: with two credential records the token state
    holds the values of the second one, not the first non-absent ones. *)
Lemma first_match_does_not_win :
  let w := Examples.world_of (Some Examples.two_records) Examples.endpoint_ok in
  let items := records (select_auth_rows Examples.two_records) in
  first_present "accessToken" items = PStr "A1" /\
  first_present "refreshToken" items = PStr "R1" /\
  first_present "expiresAt" items = PInt 1700086400000 /\
  exists ti,
    fst (get_current_tokens w) = Ret (Some ti) /\
    access_token ti = PStr "A2" /\
    refresh_token ti = PStr "R2" /\
    expires_at ti = PInt 1800000000000 /\
    access_token ti <> first_present "accessToken" items /\
    refresh_token ti <> first_present "refreshToken" items /\
    expires_at ti <> first_present "expiresAt" items.
Proof.
  intros w items.
  split; [reflexivity|]. split; [reflexivity|]. split; [reflexivity|].
  exists (mkTokenInfo (PStr "A2") (PStr "R2") (PInt 1800000000000) items).
  split; [vm_compute; reflexivity|].
  cbn [access_token refresh_token expires_at].
  repeat split; try discriminate.
Qed.

(** ** The orchestrator *)

(** C3.  When the endpoint answers every request with a status other
    than 200, a pass leaves the table as it is and executes no UPDATE;
    and if the pass got as far as the refresh call, it returns [False]
    with the refresh-failed line as its last log line. *)
Theorem refresh_rejected_leaves_store (w : world) :
  (forall req, exists status_code text,
     http w req = HttpResponse status_code text /\ status_code <> 200) ->
  let r := refresh_if_needed w in
  db (snd r) = db w /\ executed (snd r) = executed w /\
  (exists b, fst r = Ret b) /\
  (sent (snd r) <> sent w ->
   fst r = Ret false /\ last_logged (snd r) = Some RefreshFailed /\
   List.length (sent (snd r)) = S (List.length (sent w))).
Proof.
  intros H r. subst r.
  destruct (refresh_if_needed_trace w) as (r1 & w1 & E1 & F1 & _ & T).
  destruct F1 as (A1 & A2 & A3 & A4 & A5 & A6).
  assert (forall b w' ev,
            db w' = db w -> executed w' = executed w -> sent w' = sent w ->
            refresh_if_needed w = (Ret b, snd (logging ev w')) ->
            db (snd (refresh_if_needed w)) = db w /\
            executed (snd (refresh_if_needed w)) = executed w /\
            (exists b, fst (refresh_if_needed w) = Ret b) /\
            (sent (snd (refresh_if_needed w)) <> sent w ->
             fst (refresh_if_needed w) = Ret false /\
             last_logged (snd (refresh_if_needed w)) = Some RefreshFailed /\
             List.length (sent (snd (refresh_if_needed w))) =
               S (List.length (sent w)))) as Quiet.
  { intros b w' ev D X S ->. cbn [fst snd logging db executed sent].
    split; [exact D|]. split; [exact X|]. split; [eauto|].
    intros N; exfalso; apply N; exact S. }
  destruct r1 as [ti|]; [|eapply Quiet; eauto].
  destruct (truthy (refresh_token ti)); [|eapply Quiet; eauto].
  destruct T as (b & w2 & E2 & (B1 & B2 & B3 & B4 & B5) & T).
  destruct b; [|eapply Quiet; [| | |exact T]; congruence].
  destruct T as (w3 & E3 & V1 & V2 & V3 & Vt & V4 & V5 & T).
  cbv zeta in T.
  destruct (H (refresh_request (refresh_token ti)))
    as (status_code & text & Hr & N).
  rewrite Hr in T. unfold refresh_result in T.
  destruct (Z.eqb_spec status_code 200); [contradiction|].
  cbn [truthy] in T. rewrite T. cbn [fst snd logging db executed sent].
  unfold last_logged. cbn [log hd_error].
  split; [exact V1|]. split; [exact V4|]. split; [eauto|].
  intros _. split; [reflexivity|]. split; [reflexivity|].
  rewrite V5. reflexivity.
Qed.

Lemma refresh_rejected_leaves_store_witness :
  let w := Examples.world_of (Some Examples.one_record) Examples.endpoint_401 in
  let r := refresh_if_needed w in
  db (snd r) = Some Examples.one_record /\ executed (snd r) = [] /\
  fst r = Ret false /\ last_logged (snd r) = Some RefreshFailed.
Proof.
  intros w r.
  assert (forall req, exists status_code text,
            http w req = HttpResponse status_code text /\ status_code <> 200) as H.
  { intros req. exists 401, (Examples.dq "{'error': 'unauthorized'}").
    split; [reflexivity|discriminate]. }
  destruct (refresh_rejected_leaves_store w H) as (A & B & _ & C).
  destruct C as (C1 & C2 & _); [vm_compute; discriminate|].
  repeat split; assumption.
Defined.

Lemma records_nil_refresh_token :
  last_holding "refreshToken" (records []) = PNone.
Proof. reflexivity. Qed.

(** C5, as the code has it.  When the store cannot be read, a pass
    returns [False] with the no-token-information line and writes
    nothing.  When the store is read and no key matches the filter, a
    pass returns [False] as well and writes nothing, but its last line
    is the no-refresh-token line, the one it also logs when records exist
    and none has a refresh token. *)
Theorem store_unreachable_or_no_match (w : world) :
  let r := refresh_if_needed w in
  (db w = None ->
   fst r = Ret false /\ last_logged (snd r) = Some NoTokenInfo /\
   untouched w (snd r)) /\
  (forall t, db w = Some t -> select_auth_rows t = [] ->
   fst r = Ret false /\ last_logged (snd r) = Some NoRefreshToken /\
   untouched w (snd r)).
Proof.
  intros r. subst r.
  destruct (refresh_if_needed_trace w) as (r1 & w1 & E1 & F1 & G1 & T).
  pose proof (log_only_untouched _ _ F1) as (A1 & A2 & A3 & A4 & A5).
  split.
  - intros H. destruct r1 as [ti|].
    + destruct G1 as (t & Ht & _). congruence.
    + rewrite T. cbn [fst snd]. split; [reflexivity|]. split; [reflexivity|].
      repeat split; assumption.
  - intros t H S. destruct r1 as [ti|].
    + destruct G1 as (t' & Ht & _ & ->).
      assert (t' = t) as -> by congruence.
      rewrite S in T. cbn [refresh_token] in T.
      rewrite records_nil_refresh_token in T. cbn [truthy] in T.
      rewrite T. cbn [fst snd]. split; [reflexivity|]. split; [reflexivity|].
      repeat split; assumption.
    + destruct G1 as [G1|(t' & Ht & G1)]; [congruence|].
      assert (t' = t) as -> by congruence.
      exfalso; apply G1. rewrite S. constructor.
Qed.

Lemma store_unreachable_or_no_match_witness :
  let r1 := refresh_if_needed (Examples.world_of None Examples.endpoint_ok) in
  let r2 := refresh_if_needed
              (Examples.world_of (Some [("workbench.theme", CText "dark")])
                 Examples.endpoint_ok) in
  (fst r1 = Ret false /\ last_logged (snd r1) = Some NoTokenInfo /\
   executed (snd r1) = []) /\
  (fst r2 = Ret false /\ last_logged (snd r2) = Some NoRefreshToken /\
   executed (snd r2) = []).
Proof.
  intros r1 r2. split.
  - destruct (store_unreachable_or_no_match
                (Examples.world_of None Examples.endpoint_ok)) as (A & _).
    destruct (A eq_refl) as (A1 & A2 & (_ & _ & _ & _ & A3)).
    repeat split; assumption.
  - destruct (store_unreachable_or_no_match
                (Examples.world_of (Some [("workbench.theme", CText "dark")])
                   Examples.endpoint_ok)) as (_ & B).
    destruct (B _ eq_refl eq_refl) as (B1 & B2 & (_ & _ & _ & _ & B3)).
    repeat split; assumption.
Defined.

(** C5, as stated, fails: on a store that is read and has no matching
    key, the pass ends on the no-refresh-token line, exactly as on a
    store whose only credential record has no refresh token; the
    no-token-information line is not logged. *)
Lemma empty_scan_reports_missing_refresh_token :
  let no_match :=
    refresh_if_needed
      (Examples.world_of (Some [("workbench.theme", CText "dark")])
         Examples.endpoint_ok) in
  let no_refresh_token :=
    refresh_if_needed
      (Examples.world_of
         (Some [("cursorAuth/tokens", CText (Examples.dq "{'accessToken': 'A'}"))])
         Examples.endpoint_ok) in
  select_auth_rows [("workbench.theme", CText "dark")] = [] /\
  fst no_match = Ret false /\
  last_logged (snd no_match) = Some NoRefreshToken /\
  ~ In NoTokenInfo (log (snd no_match)) /\
  fst no_refresh_token = fst no_match /\
  last_logged (snd no_refresh_token) = last_logged (snd no_match).
Proof.
  intros a b. subst a b.
  split; [reflexivity|]. split; [reflexivity|]. split; [reflexivity|].
  split; [vm_compute; intuition discriminate|]. split; reflexivity.
Qed.





(** Outside the data model: when a record holds an [accessToken] that
    is neither a string nor empty, building the log line for it raises;
    the UPDATE already executed for an earlier record is not committed,
    the table is left as it was and the pass fails. *)
Lemma numeric_access_token_aborts_persist :
  let w := Examples.world_of (Some Examples.untyped_records) Examples.endpoint_ok in
  let r := refresh_if_needed w in
  fst r = Ret false /\
  last_logged (snd r) = Some RefreshOkUpdateFailed /\
  In (UpdateDbFailed TypeError) (log (snd r)) /\
  List.length (executed (snd r)) = 1%nat /\
  db (snd r) = Some Examples.untyped_records.
Proof.
  vm_compute. repeat split. right. left. reflexivity.
Qed.



(** The same run, evaluated: the record as it is stored. *)
Lemma one_record_refreshed :
  let w := Examples.world_of (Some Examples.one_record) Examples.endpoint_ok in
  let r := refresh_if_needed w in
  fst r = Ret true /\
  db (snd r) =
    Some [("cursorAuth/tokens",
           CText (Examples.dq
                    "{'accessToken': 'NEW', 'refreshToken': 'R1', 'expiresAt': 1700003600000}"))] /\
  List.length (executed (snd r)) = 1%nat /\
  List.length (sent (snd r)) = 1%nat.
Proof. vm_compute. repeat split. Qed.

(** * Further properties of the token manager *)

(** ** The persist step, whatever it is given *)

Lemma sql_update_other v k tx (r : row) :
  In r tx -> fst r <> k -> In r (sql_update v k tx).
Proof.
  intros I N. unfold sql_update. apply in_map_iff. exists r. split; [|exact I].
  destruct (String.eqb_spec (fst r) k); [contradiction|reflexivity].
Qed.

Ltac frame_leaf :=
  eexists _, _; split;
  [reflexivity | repeat split; try (eexists; reflexivity)].

Ltac frame_raise e := destruct (is_JSONDecodeError e); frame_leaf.

(** One round of the loop: it raises, or skips the row, or runs one
    UPDATE on the key of the row; it sends nothing and commits
    nothing. *)
Lemma update_row_general nd k c tx w :
  exists r w1,
    try_except (update_row nd k c tx) is_JSONDecodeError (fun _ => ret None) w
      = (r, w1) /\
    db w1 = db w /\ clock w1 = clock w /\ http w1 = http w /\ sent w1 = sent w /\
    match r with
    | Ret (Some tx1) => exists v, tx1 = sql_update v k tx
    | _ => True
    end.
Proof.
  unfold update_row. run_monad.
  destruct (cell_truthy c); [|cbn [dict_get]; frame_leaf].
  destruct (json_loads c) as [data|e]; [|frame_raise e].
  destruct data as [| | | | | |d]; try frame_leaf.
  destruct (dict_get "accessToken" d) as [old|]; [|frame_leaf].
  destruct (preview old) as [s|e]; [|frame_raise e].
  destruct nd as [| | | | | |nd]; try frame_leaf.
  destruct (dict_get "expires_in" nd) as [v|].
  - destruct (timedelta_seconds v) as [delta|e]; [|frame_raise e].
    destruct (datetime_add _ delta) as [t'|e]; [|frame_raise e].
    destruct (preview _) as [s'|e]; [frame_leaf|frame_raise e].
  - destruct (preview _) as [s'|e]; [frame_leaf|frame_raise e].
Qed.

(** The loop: it keeps the keys of the transaction and their order, it
    leaves the rows under other keys as they are, and a count that did
    not move means a transaction that did not change. *)
Lemma update_rows_general nd : forall rows tx count w,
  exists r w',
    update_rows nd rows tx count w = (r, w') /\
    db w' = db w /\ clock w' = clock w /\ http w' = http w /\ sent w' = sent w /\
    match r with
    | Ret (tx', count') =>
        map fst tx' = map fst tx /\ count <= count' /\
        (count' = count -> tx' = tx) /\
        (forall row, In row tx -> ~ In (fst row) (map fst rows) -> In row tx')
    | Raise _ => True
    end.
Proof.
  induction rows as [|[k c] rows IH]; intros tx count w.
  - eexists _, w. split; [reflexivity|]. repeat split; auto. lia.
  - cbn [update_rows]. unfold bind at 1.
    destruct (update_row_general nd k c tx w)
      as (r & w1 & E & W1 & W2 & W3 & W4 & R).
    rewrite E. destruct r as [[tx1|]|e].
    + destruct R as (v & ->).
      destruct (IH (sql_update v k tx) (count + 1) w1)
        as (r' & w' & E' & V1 & V2 & V3 & V4 & R').
      exists r', w'. split; [exact E'|].
      repeat (split; [congruence|]).
      destruct r' as [[tx' count']|e]; [|exact I].
      destruct R' as (K & C & _ & O).
      split; [rewrite K; apply sql_update_keys|].
      split; [lia|]. split; [lia|].
      intros row Ir N. apply O.
      * apply sql_update_other; [exact Ir|].
        intros Q. apply N. left. symmetry. exact Q.
      * intros J. apply N. right. exact J.
    + destruct (IH tx count w1) as (r' & w' & E' & V1 & V2 & V3 & V4 & R').
      exists r', w'. split; [exact E'|].
      repeat (split; [congruence|]).
      destruct r' as [[tx' count']|e]; [|exact I].
      destruct R' as (K & C & Z & O).
      repeat split; auto.
      intros row Ir N. apply O; [exact Ir|].
      intros J. apply N. right. exact J.
    + eexists _, w1. split; [reflexivity|]. repeat split; auto.
Qed.

Lemma update_token_in_db_general nd w :
  exists b w',
    update_token_in_db nd w = (Ret b, w') /\
    clock w' = clock w /\ http w' = http w /\ sent w' = sent w /\
    match db w with
    | None => db w' = None /\ b = false
    | Some t =>
        exists t', db w' = Some t' /\ map fst t' = map fst t /\
          (b = false -> t' = t) /\
          (forall row, In row t -> key_matches (fst row) = false -> In row t')
    end.
Proof.
  unfold update_token_in_db. unfold try_except, bind at 1, sqlite3_connect.
  destruct (db w) as [t|] eqn:H.
  - unfold bind at 1.
    destruct (update_rows_general nd (select_auth_rows t) t 0 w)
      as (r & w1 & E & W1 & W2 & W3 & W4 & R).
    rewrite E. destruct r as [[tx' count']|e].
    + destruct R as (K & C & Z & O). run_monad.
      eexists _, _. split; [reflexivity|]. cbn [db clock http sent].
      repeat (split; [assumption|]).
      exists tx'. split; [reflexivity|]. split; [exact K|]. split.
      * intros F. apply Z. rewrite Z.gtb_ltb in F. apply Z.ltb_ge in F. lia.
      * intros row Ir M. apply O; [exact Ir|].
        intros J. apply in_map_iff in J as (x & Q & J).
        apply filter_In in J as (_ & J). rewrite Q in J. congruence.
    + run_monad. eexists _, _. split; [reflexivity|]. cbn [db clock http sent].
      repeat (split; [assumption|]).
      exists t. split; [congruence|]. repeat split; auto.
  - run_monad. eexists _, _. split; [reflexivity|]. cbn [db clock http sent].
    repeat split; auto.
Qed.

Import Edge.

(** X1.  [update_token_in_db], whatever its argument and whatever the
    table holds, raises nothing, sends nothing, and keeps the keys of the
    table and their order; the rows whose key the filter does not select
    are as they were; and when it returns [False] the whole table is as
    it was. *)
Theorem persist_is_all_or_nothing (nd : pyobj) (w : world) :
  let r := update_token_in_db nd w in
  (exists b, fst r = Ret b) /\
  sent (snd r) = sent w /\
  (db w = None -> db (snd r) = None /\ fst r = Ret false) /\
  (forall t, db w = Some t ->
     exists t', db (snd r) = Some t' /\ map fst t' = map fst t /\
       (fst r = Ret false -> t' = t) /\
       (forall row, In row t -> key_matches (fst row) = false -> In row t')).
Proof.
  intros r. subst r.
  destruct (update_token_in_db_general nd w) as (b & w' & E & C & H & S & D).
  rewrite E. cbn [fst snd]. split; [eauto|]. split; [exact S|]. split.
  - intros N. rewrite N in D. destruct D as (D1 & ->). auto.
  - intros t Ht. rewrite Ht in D. destruct D as (t' & D1 & D2 & D3 & D4).
    exists t'. repeat split; auto. intros [= ->]. auto.
Qed.

Lemma persist_is_all_or_nothing_witness :
  let w := Examples.world_of (Some Examples.untyped_records) Examples.endpoint_ok in
  let r := update_token_in_db (PDict [("access_token", PStr "NEW")]) w in
  fst r = Ret false /\ db (snd r) = Some Examples.untyped_records.
Proof.
  intros w r.
  destruct (persist_is_all_or_nothing (PDict [("access_token", PStr "NEW")]) w)
    as (_ & _ & _ & A).
  destruct (A Examples.untyped_records eq_refl) as (t' & D & _ & F & _).
  assert (fst r = Ret false) as R by (vm_compute; reflexivity).
  split; [exact R|]. subst r. rewrite D. f_equal. apply F. exact R.
Defined.

(** X2.  [refresh_if_needed] raises nothing, whatever the world, and
    issues at most one request, a refresh request for a truthy refresh
    token. *)
Theorem pass_never_raises (w : world) :
  let r := refresh_if_needed w in
  (exists b, fst r = Ret b) /\
  (sent (snd r) = sent w \/
   exists rt, truthy rt = true /\ sent (snd r) = refresh_request rt :: sent w).
Proof.
  intros r. subst r.
  destruct (refresh_if_needed_trace w) as (r1 & w1 & E1 & F1 & _ & T).
  destruct F1 as (A1 & A2 & A3 & A4 & A5 & A6).
  destruct r1 as [ti|].
  2:{ rewrite T. cbn [fst snd logging sent]. split; eauto. }
  destruct (truthy (refresh_token ti)) eqn:Trt.
  2:{ rewrite T. cbn [fst snd logging sent]. split; eauto. }
  destruct T as (b & w2 & E2 & (B1 & B2 & B3 & B4 & B5) & T).
  destruct b.
  2:{ rewrite T. cbn [fst snd logging sent]. split; eauto. left; congruence. }
  destruct T as (w3 & E3 & V1 & V2 & V3 & Vt & V4 & V5 & T).
  cbv zeta in T.
  destruct (truthy (refresh_result _)).
  - destruct T as (u & w4 & E4 & T).
    destruct (update_token_in_db_general
                (refresh_result (http w (refresh_request (refresh_token ti)))) w3)
      as (b' & w4' & E4' & C & H & S & _).
    rewrite E4 in E4'. injection E4' as <- <-.
    rewrite T. cbn [fst snd logging sent]. split; [eauto|].
    right. exists (refresh_token ti). split; [exact Trt|congruence].
  - rewrite T. cbn [fst snd logging sent]. split; [eauto|].
    right. exists (refresh_token ti). split; [exact Trt|congruence].
Qed.

(** X3.  A pass that returns [False] leaves the table as it was; any
    pass keeps the keys of the table and their order, and the rows whose
    key the filter does not select. *)
Theorem failed_pass_keeps_table (w : world) :
  let r := refresh_if_needed w in
  (fst r = Ret false -> db (snd r) = db w) /\
  (db w = None -> db (snd r) = None) /\
  (forall t, db w = Some t ->
     exists t', db (snd r) = Some t' /\ map fst t' = map fst t /\
       (forall row, In row t -> key_matches (fst row) = false -> In row t')).
Proof.
  intros r. subst r.
  destruct (refresh_if_needed_trace w) as (r1 & w1 & E1 & F1 & _ & T).
  destruct F1 as (A1 & A2 & A3 & A4 & A5 & A6).
  assert (forall b w' ev,
            db w' = db w ->
            refresh_if_needed w = (Ret b, snd (logging ev w')) ->
            (fst (refresh_if_needed w) = Ret false ->
             db (snd (refresh_if_needed w)) = db w) /\
            (db w = None -> db (snd (refresh_if_needed w)) = None) /\
            (forall t, db w = Some t ->
               exists t', db (snd (refresh_if_needed w)) = Some t' /\
                 map fst t' = map fst t /\
                 (forall row, In row t -> key_matches (fst row) = false ->
                    In row t'))) as Quiet.
  { intros b w' ev D ->. cbn [fst snd logging db]. rewrite D.
    split; [auto|]. split; [auto|]. intros t Ht. exists t. auto. }
  destruct r1 as [ti|]; [|eapply Quiet; eauto].
  destruct (truthy (refresh_token ti)); [|eapply Quiet; eauto].
  destruct T as (b & w2 & E2 & (B1 & B2 & B3 & B4 & B5) & T).
  destruct b; [|eapply Quiet; [|exact T]; congruence].
  destruct T as (w3 & E3 & V1 & V2 & V3 & Vt & V4 & V5 & T).
  cbv zeta in T.
  destruct (truthy (refresh_result _)); [|eapply Quiet; [|exact T]; congruence].
  destruct T as (u & w4 & E4 & T).
  destruct (update_token_in_db_general
              (refresh_result (http w (refresh_request (refresh_token ti)))) w3)
    as (b' & w4' & E4' & C & H & S & D).
  rewrite E4 in E4'. injection E4' as <- <-.
  rewrite T. cbn [fst snd logging db]. rewrite V1 in D.
  destruct (db w) as [t|] eqn:Hdb.
  - destruct D as (t' & D1 & D2 & D3 & D4).
    split; [|split; [discriminate|]].
    + intros [= ->]. rewrite D1. f_equal. auto.
    + intros t0 [= <-]. exists t'. auto.
  - destruct D as (D1 & ->). split; [auto|]. split; [auto|discriminate].
Qed.

Lemma failed_pass_keeps_table_witness :
  let w := Examples.world_of (Some Examples.untyped_records) Examples.endpoint_ok in
  let r := refresh_if_needed w in
  fst r = Ret false /\ db (snd r) = db w.
Proof.
  intros w r.
  assert (fst r = Ret false) as R by (vm_compute; reflexivity).
  split; [exact R|].
  destruct (failed_pass_keeps_table w) as (A & _). exact (A R).
Defined.


Lemma not_text_not_loadable rows :
  Exists not_text rows -> ~ Forall loadable rows.
Proof.
  intros E F. apply Exists_exists in E as ([k c] & I & n & Q & N).
  rewrite Forall_forall in F. specialize (F _ I).
  unfold loadable in F. cbn [snd] in *. subst c. contradiction.
Qed.


(** X5.  One selected row with a non-zero integer as its value makes the
    whole pass fail on the no-token-information line, whatever the other
    records hold; nothing is sent and nothing is written. *)
Theorem integer_value_aborts_pass (w : world) (t : table) :
  db w = Some t -> Exists not_text (select_auth_rows t) ->
  let r := refresh_if_needed w in
  fst r = Ret false /\ last_logged (snd r) = Some NoTokenInfo /\
  untouched w (snd r).
Proof.
  intros H N r. subst r.
  destruct (refresh_if_needed_trace w) as (r1 & w1 & E1 & F1 & G1 & T).
  pose proof (log_only_untouched _ _ F1) as (A1 & A2 & A3 & A4 & A5).
  destruct r1 as [ti|].
  - destruct G1 as (t' & H' & L & _).
    assert (t' = t) as -> by congruence.
    exfalso. exact (not_text_not_loadable _ N L).
  - rewrite T. cbn [fst snd]. split; [reflexivity|]. split; [reflexivity|].
    repeat split; assumption.
Qed.

Lemma integer_value_aborts_pass_witness :
  let t := (Examples.one_record ++ [("authVersion", CInt 3)])%list in
  let r := refresh_if_needed (Examples.world_of (Some t) Examples.endpoint_ok) in
  fst r = Ret false /\ last_logged (snd r) = Some NoTokenInfo.
Proof.
  intros t r.
  destruct (integer_value_aborts_pass
              (Examples.world_of (Some t) Examples.endpoint_ok) t eq_refl)
    as (A & B & _).
  - right. left. exists 3. split; [reflexivity|discriminate].
  - split; assumption.
Defined.

(** X6.  When the scan gives no truthy refresh token (the last record
    with a [refreshToken] field holds null or an empty string, or no
    record has the field), the pass returns [False] on the
    no-refresh-token line without reading the clock, sending a request
    or writing, however stale the access token is. *)
Theorem no_refresh_token_no_request (w : world) (t : table) :
  db w = Some t -> Forall loadable (select_auth_rows t) ->
  truthy (last_holding "refreshToken" (records (select_auth_rows t))) = false ->
  let r := refresh_if_needed w in
  fst r = Ret false /\ last_logged (snd r) = Some NoRefreshToken /\
  log_only w (snd r).
Proof.
  intros H L Trt r. subst r.
  destruct (refresh_if_needed_trace w) as (r1 & w1 & E1 & F1 & G1 & T).
  destruct r1 as [ti|].
  - destruct G1 as (t' & H' & _ & ->).
    assert (t' = t) as -> by congruence.
    cbn [refresh_token] in T. rewrite Trt in T.
    rewrite T. cbn [fst snd]. split; [reflexivity|]. split; [reflexivity|].
    destruct F1 as (A1 & A2 & A3 & A4 & A5 & A6). repeat split; assumption.
  - destruct G1 as [G1|(t' & H' & G1)]; [congruence|].
    assert (t' = t) as -> by congruence. contradiction.
Qed.

Lemma no_refresh_token_no_request_witness :
  let t :=
    [("cursorAuth/first",
      CText (Examples.dq "{'accessToken': 'A1', 'refreshToken': 'R1'}"));
     ("cursorAuth/second",
      CText (Examples.dq "{'accessToken': 'A2', 'refreshToken': null}"))] in
  let r := refresh_if_needed (Examples.world_of (Some t) Examples.endpoint_ok) in
  fst r = Ret false /\ last_logged (snd r) = Some NoRefreshToken /\
  sent (snd r) = [].
Proof.
  intros t r.
  destruct (no_refresh_token_no_request
              (Examples.world_of (Some t) Examples.endpoint_ok) t eq_refl)
    as (A & B & (_ & _ & _ & _ & C & _)).
  - repeat constructor.
  - reflexivity.
  - repeat split; assumption.
Defined.



Lemma dict_set_keys {A : Type} k (v : A) d :
  exists added, map fst (dict_set k v d) = (map fst d ++ added)%list.
Proof.
  induction d as [|[k' v'] d (added & IH)]; simpl.
  - exists [k]. reflexivity.
  - destruct (k' =? k)%string; simpl.
    + exists []. rewrite app_nil_r. reflexivity.
    + exists added. rewrite IH. reflexivity.
Qed.

Lemma keeps_keys_refl d : keeps_keys d d.
Proof. exists []. rewrite app_nil_r. reflexivity. Qed.

Lemma keeps_keys_set k v d d' :
  keeps_keys d d' -> keeps_keys d (dict_set k v d').
Proof.
  intros (a & E). destruct (dict_set_keys k v d') as (b & E').
  exists (a ++ b)%list. rewrite E', E, app_assoc. reflexivity.
Qed.

Lemma renewed_keeps_keys nd now d : keeps_keys d (renewed nd now d).
Proof.
  unfold renewed.
  destruct (dict_get "access_token" nd), (dict_get "refresh_token" nd),
    (dict_get "expires_in" nd) as [[]|];
    repeat apply keeps_keys_set; apply keeps_keys_refl.
Qed.

Lemma renewed_field nd now d f :
  (f = "accessToken" -> dict_get "access_token" nd = None) ->
  (f = "refreshToken" -> dict_get "refresh_token" nd = None) ->
  (f = "expiresAt" -> dict_get "expires_in" nd = None) ->
  dict_get f (renewed nd now d) = dict_get f d.
Proof.
  intros Ha Hr He. unfold renewed.
  destruct (dict_get "access_token" nd) eqn:Ea,
    (dict_get "refresh_token" nd) eqn:Er,
    (dict_get "expires_in" nd) as [[]|] eqn:Ee;
    repeat (rewrite dict_get_set_neq;
            [|let Q := fresh in
              intros Q; symmetry in Q;
              first [specialize (Ha Q)|specialize (Hr Q)|specialize (He Q)];
              discriminate]);
    reflexivity.
Qed.

Lemma renewed_sets_access nd now d a :
  dict_get "access_token" nd = Some a ->
  dict_get "accessToken" (renewed nd now d) = Some a.
Proof.
  intros E. unfold renewed. rewrite E.
  destruct (dict_get "refresh_token" nd), (dict_get "expires_in" nd) as [[]|];
    repeat (rewrite dict_get_set_neq by discriminate);
    apply dict_get_set_eq.
Qed.

Lemma renewed_sets_refresh nd now d r :
  dict_get "refresh_token" nd = Some r ->
  dict_get "refreshToken" (renewed nd now d) = Some r.
Proof.
  intros E. unfold renewed. rewrite E.
  destruct (dict_get "expires_in" nd) as [[]|];
    repeat (rewrite dict_get_set_neq by discriminate);
    apply dict_get_set_eq.
Qed.

Lemma token_field_false f :
  token_field f = false ->
  f <> "accessToken" /\ f <> "refreshToken" /\ f <> "expiresAt".
Proof.
  unfold token_field. intros H.
  apply orb_false_iff in H as (H & H3). apply orb_false_iff in H as (H1 & H2).
  apply String.eqb_neq in H1, H2, H3. auto.
Qed.

Lemma persisted_with_care sel w nd before after :
  persisted_if sel w nd before after -> rewritten_with_care nd before after.
Proof.
  intros (K & P). split; [exact K|].
  destruct (sel (fst before) && updatable (snd before)); [|left; exact P].
  destruct P as (d & i & L & W). right.
  exists d, (renewed nd (clock w i) d).
  split; [exact L|]. split; [exact W|].
  split; [apply renewed_keeps_keys|].
  split.
  { intros f F. apply token_field_false in F as (F1 & F2 & F3).
    apply renewed_field; intros Q; contradiction. }
  split.
  { intros E. apply renewed_field; [discriminate|auto|discriminate]. }
  split.
  { intros E. apply renewed_field; [discriminate|discriminate|auto]. }
  split.
  { intros E. apply renewed_field; [auto|discriminate|discriminate]. }
  split.
  { intros a E. apply renewed_sets_access; exact E. }
  intros r E. apply renewed_sets_refresh; exact E.
Qed.

(** X8.  The persist step rewrites records with care.  For a store with
    one row per key whose selected rows and the response are as the data
    model has them, each row after the step is the row before it or the
    serialisation of its record with the same fields in the same order:
    fields other than [accessToken], [refreshToken] and [expiresAt] keep
    their values, a token field the response says nothing about keeps
    its value, and no field is dropped. *)
Theorem persist_keeps_other_fields (nd : dict) (w : world) (t : table) :
  db w = Some t -> NoDup (map fst t) ->
  Forall loadable (select_auth_rows t) ->
  Forall record_typed (select_auth_rows t) ->
  response_typed w nd ->
  exists t',
    db (snd (update_token_in_db (PDict nd) w)) = Some t' /\
    Forall2 (rewritten_with_care nd) t t'.
Proof.
  intros H N L Ty R.
  destruct (update_token_in_db_run nd w t H N L Ty R)
    as (t' & w' & E & D & F & _).
  exists t'. rewrite E. cbn [snd]. split; [exact D|].
  clear - F. induction F; constructor; auto.
  eapply persisted_with_care; eassumption.
Qed.

Lemma persist_keeps_other_fields_witness :
  let nd := [("access_token", PStr "NEW"); ("expires_in", PInt 3600)] in
  let w := Examples.world_of (Some profile_record) Examples.endpoint_ok in
  exists t',
    db (snd (update_token_in_db (PDict nd) w)) = Some t' /\
    Forall2 (rewritten_with_care nd) profile_record t'.
Proof.
  intros nd w.
  apply (persist_keeps_other_fields nd w profile_record eq_refl).
  - repeat constructor; simpl; intuition discriminate.
  - repeat constructor.
  - repeat constructor.
    intros d a L G. vm_compute in L. injection L as <-.
    vm_compute in G. injection G as <-. reflexivity.
  - split.
    + intros a G. vm_compute in G. injection G as <-. reflexivity.
    + intros v G. vm_compute in G. injection G as <-. exists 3600.
      split; [reflexivity|]. intros i.
      unfold w, Examples.world_of. cbn [clock].
      unfold Examples.clock0, datetime_min, datetime_max. lia.
Defined.

(** ** More on the JWT codec *)

Lemma split_aux_app sep a b : forall cur,
  split_aux sep (a ++ String sep b) cur =
  (split_aux sep a cur ++ split_aux sep b EmptyString)%list.
Proof.
  induction a as [|c a IH]; intros cur; cbn [append split_aux].
  - rewrite Ascii.eqb_refl. reflexivity.
  - destruct (Ascii.eqb c sep); [rewrite IH; reflexivity|apply IH].
Qed.

Lemma split_aux_length s : forall cur,
  List.length (split_aux "."%char s cur) = S (dots s).
Proof.
  induction s as [|c s IH]; intros cur; cbn [split_aux dots]; [reflexivity|].
  destruct (Ascii.eqb c "."%char); cbn [List.length]; rewrite IH; reflexivity.
Qed.

Lemma append_assoc (a b c : string) : ((a ++ b) ++ c = a ++ (b ++ c))%string.
Proof. induction a; simpl; congruence. Qed.

Lemma append_nil_r (a : string) : (a ++ EmptyString)%string = a.
Proof. induction a; simpl; congruence. Qed.

Lemma split_aux_dot_free s : forall cur,
  dots s = 0%nat -> split_aux "."%char s cur = [(cur ++ s)%string].
Proof.
  induction s as [|c s IH]; intros cur D; cbn [split_aux dots] in *.
  - rewrite append_nil_r. reflexivity.
  - destruct (Ascii.eqb c "."%char); [discriminate|].
    rewrite IH by exact D. rewrite append_assoc. reflexivity.
Qed.

Lemma split_token_of h p s :
  dots h = 0%nat -> dots s = 0%nat ->
  split "."%char (token_of h p s) = ([h] ++ split "."%char p ++ [s])%list.
Proof.
  intros Dh Ds. unfold split, token_of.
  rewrite split_aux_app, split_aux_app.
  rewrite (split_aux_dot_free h) by exact Dh.
  rewrite (split_aux_dot_free s) by exact Ds. reflexivity.
Qed.

(** X9.  [decode_jwt_payload] gives the not-a-JWT message exactly for
    the tokens that do not have two dots; every other failure carries the
    decode-failed message. *)
Theorem format_error_iff_dots (token : string) :
  snd (decode_jwt_payload token) = Some NotValidJwtFormat <->
  dots token <> 2%nat.
Proof.
  unfold decode_jwt_payload.
  pose proof (split_aux_length token EmptyString) as L. fold (split "."%char token) in L.
  destruct (split "."%char token) as [|a [|b [|c [|d l]]]];
    cbn [List.length] in L; cbn [snd].
  - discriminate.
  - split; [intros _; lia|reflexivity].
  - split; [intros _; lia|reflexivity].
  - assert (dots token = 2%nat) as D by lia.
    split; [|intros N; contradiction].
    destruct (Base64.urlsafe_b64decode (add_padding b)) as [bytes|e];
      [|discriminate].
    destruct (Base64.decode_utf8 bytes) as [text|e]; [|discriminate].
    destruct (Json.loads text); discriminate.
  - split; [intros _; lia|reflexivity].
Qed.

(** X10.  Header and signature are never looked at: two tokens with the
    same payload part decode alike, whatever their dot-free first and
    third parts are. *)
Theorem signature_is_not_checked (h s h' s' p : string) :
  dots h = 0%nat -> dots s = 0%nat -> dots h' = 0%nat -> dots s' = 0%nat ->
  decode_jwt_payload (token_of h p s) = decode_jwt_payload (token_of h' p s').
Proof.
  intros Dh Ds Dh' Ds'. unfold decode_jwt_payload.
  rewrite (split_token_of h p s Dh Ds), (split_token_of h' p s' Dh' Ds').
  destruct (split "."%char p) as [|a [|b [|c l]]]; reflexivity.
Qed.

Lemma signature_is_not_checked_witness :
  decode_jwt_payload (token_of "eyJhbGciOiJIUzI1NiJ9" "eyJhIjoxMjN9" "c2lnbmVk") =
  decode_jwt_payload (token_of "h" "eyJhIjoxMjN9" EmptyString).
Proof.
  apply (signature_is_not_checked "eyJhbGciOiJIUzI1NiJ9" "c2lnbmVk" "h"
           EmptyString "eyJhIjoxMjN9"); reflexivity.
Defined.

Lemma b64_value_ascii c v : Base64.b64_value c = Some v -> Json.code c < 128.
Proof.
  unfold Base64.b64_value. cbv zeta.
  repeat match goal with
         | |- context [if ?b then _ else _] => destruct b eqn:?
         end; try discriminate; intros _; lia.
Qed.

Lemma b64_value_not_pad c v : Base64.b64_value c = Some v -> c <> "="%char.
Proof. intros E ->. vm_compute in E. discriminate. Qed.

Lemma in_alphabet_In p :
  in_alphabet p = true ->
  forall c, In c (list_ascii_of_string p) ->
    c <> "="%char /\ Base64.b64_value c <> None.
Proof.
  induction p as [|a p IH]; cbn [in_alphabet list_ascii_of_string]; intros A c I.
  - destruct I.
  - destruct (Base64.b64_value a) as [v|] eqn:E; [|discriminate].
    destruct I as [<-|I]; [|exact (IH A c I)].
    split; [exact (b64_value_not_pad _ _ E)|congruence].
Qed.

Lemma in_alphabet_ascii p n :
  in_alphabet p = true ->
  Base64.is_ascii (p ++ str_repeat "="%char n) = true.
Proof.
  induction p as [|a p IH]; cbn [in_alphabet append Base64.is_ascii]; intros A.
  - induction n; [reflexivity|]. cbn [str_repeat Base64.is_ascii].
    rewrite IHn. reflexivity.
  - destruct (Base64.b64_value a) as [v|] eqn:E; [|discriminate].
    rewrite IH by exact A. apply b64_value_ascii in E.
    apply Z.ltb_lt in E. rewrite E. reflexivity.
Qed.

Lemma in_alphabet_len p :
  in_alphabet p = true -> py_len p = Z.of_nat (String.length p).
Proof.
  induction p as [|a p IH]; cbn [in_alphabet py_len String.length]; intros A;
    [reflexivity|].
  destruct (Base64.b64_value a) as [v|] eqn:E; [|discriminate].
  rewrite IH by exact A. apply b64_value_ascii in E.
  unfold is_continuation, Json.code in *. cbv zeta.
  destruct (Z.leb_spec 128 (Z.of_nat (nat_of_ascii a))); [lia|].
  cbn [andb]. lia.
Qed.

Lemma in_alphabet_dot_free p : in_alphabet p = true -> dots p = 0%nat.
Proof.
  induction p as [|a p IH]; cbn [in_alphabet dots]; intros A; [reflexivity|].
  destruct (Base64.b64_value a) as [v|] eqn:E; [|discriminate].
  rewrite IH by exact A.
  destruct (Ascii.eqb_spec a "."%char) as [->|]; [|reflexivity].
  vm_compute in E. discriminate.
Qed.

(** A run of alphabet characters moves the position in the quad by its
    length and leaves the pad count at zero or above. *)
Lemma a2b_base64_run (p : string) : forall quad_pos leftchar pads out,
  0 <= quad_pos < 4 -> 0 <= pads ->
  in_alphabet p = true ->
  exists leftchar' pads' out',
    0 <= pads' /\
    forall rest,
      Base64.a2b_base64 (p ++ rest) quad_pos leftchar pads out =
      Base64.a2b_base64 rest ((quad_pos + Z.of_nat (String.length p)) mod 4)
        leftchar' pads' out'.
Proof.
  induction p as [|c p IH]; intros quad_pos leftchar pads out Q P A.
  - exists leftchar, pads, out. split; [exact P|]. intros rest.
    cbn [String.length append].
    rewrite Z.add_0_r, Z.mod_small by lia. reflexivity.
  - cbn [in_alphabet] in A.
    destruct (Base64.b64_value c) as [v|] eqn:E; [|discriminate].
    pose proof (b64_value_not_pad _ _ E) as N1.
    cbn [append Base64.a2b_base64 String.length].
    destruct (Ascii.eqb_spec c "="%char); [contradiction|]. rewrite E.
    assert (forall q l o,
              0 <= q < 4 -> q = (quad_pos + 1) mod 4 ->
              exists leftchar' pads' out',
                0 <= pads' /\
                forall rest,
                  Base64.a2b_base64 (p ++ rest) q l 0 o =
                  Base64.a2b_base64 rest
                    ((quad_pos + Z.of_nat (S (String.length p))) mod 4)
                    leftchar' pads' out') as Step.
    { intros q l o Hq Eq.
      destruct (IH q l 0 o Hq ltac:(lia) A) as (l' & p' & o' & P' & E').
      exists l', p', o'. split; [exact P'|]. intros rest. rewrite E'. f_equal.
      rewrite Eq, Nat2Z.inj_succ. rewrite Zplus_mod_idemp_l. f_equal. lia. }
    destruct (Z.eqb_spec quad_pos 0) as [->|]; [apply Step; [lia|reflexivity]|].
    destruct (Z.eqb_spec quad_pos 1) as [->|]; [apply Step; [lia|reflexivity]|].
    destruct (Z.eqb_spec quad_pos 2) as [->|]; [apply Step; [lia|reflexivity]|].
    assert (quad_pos = 3) as -> by lia. apply Step; [lia|reflexivity].
Qed.

(** What the base64 step makes of a payload of alphabet characters
    after the padding step. *)
Lemma padded_alphabet_decodes p :
  in_alphabet p = true ->
  let m := Z.of_nat (String.length p) mod 4 in
  (m = 1 -> Base64.urlsafe_b64decode (add_padding p) = Raise BinasciiError) /\
  (m <> 1 -> exists bytes, Base64.urlsafe_b64decode (add_padding p) = Ret bytes).
Proof.
  intros A m.
  pose proof (Z.mod_pos_bound (Z.of_nat (String.length p)) 4 ltac:(lia)) as B.
  fold m in B.
  unfold Base64.urlsafe_b64decode, add_padding.
  rewrite (in_alphabet_ascii p _ A), (in_alphabet_len p A). fold m.
  destruct (a2b_base64_run p 0 0 0 EmptyString ltac:(lia) ltac:(lia) A)
    as (l' & p' & o' & P' & E).
  split; intros M.
  - rewrite E, Z.add_0_l. fold m. rewrite M. reflexivity.
  - rewrite E, Z.add_0_l. fold m.
    assert (m = 0 \/ m = 2 \/ m = 3) as [-> | [-> | ->]] by lia.
    + exists o'. reflexivity.
    + exists o'. change (Z.to_nat (4 - 2)) with 2%nat.
      cbn [str_repeat Base64.a2b_base64 Ascii.eqb Bool.eqb].
      change (2 <=? 2) with true. cbv iota.
      destruct (Z.leb_spec 4 (2 + (p' + 1))); [reflexivity|].
      destruct (Z.leb_spec 4 (2 + (p' + 1 + 1))); [reflexivity|lia].
    + exists o'. change (Z.to_nat (4 - 3)) with 1%nat.
      cbn [str_repeat Base64.a2b_base64 Ascii.eqb Bool.eqb].
      change (2 <=? 3) with true. cbv iota.
      destruct (Z.leb_spec 4 (3 + (p' + 1))); [reflexivity|lia].
Qed.

(** X11.  For a payload made of alphabet characters the base64 step
    fails exactly when the length is one more than a multiple of four:
    the padding the code appends covers every other length, and no
    padding helps that one. *)
Theorem base64_fails_iff_one_over (h p s : string) :
  dots h = 0%nat -> dots s = 0%nat -> in_alphabet p = true ->
  snd (decode_jwt_payload (token_of h p s)) = Some (DecodeFailed BinasciiError)
  <-> Z.of_nat (String.length p) mod 4 = 1.
Proof.
  intros Dh Ds A. unfold decode_jwt_payload.
  rewrite (split_token_of h p s Dh Ds).
  unfold split. rewrite (split_aux_dot_free p _ (in_alphabet_dot_free p A)).
  cbn [append app].
  destruct (padded_alphabet_decodes p A) as (F & G).
  destruct (Z.eq_dec (Z.of_nat (String.length p) mod 4) 1) as [M|M].
  - rewrite (F M). cbn [snd]. split; [intros _; exact M|reflexivity].
  - destruct (G M) as (bytes & ->).
    split; [|intros Q; contradiction].
    unfold Base64.decode_utf8.
    destruct (Base64.utf8_valid _ bytes); [|discriminate].
    destruct (Json.loads bytes) as [v|e] eqn:L; [discriminate|].
    apply loads_raises in L. subst e. discriminate.
Qed.

Lemma base64_fails_iff_one_over_witness :
  snd (decode_jwt_payload (token_of "h" "eyJhI" "s")) =
    Some (DecodeFailed BinasciiError) /\
  snd (decode_jwt_payload (token_of "h" "eyJhIjoxfQ" "s")) = None.
Proof.
  split.
  - apply (base64_fails_iff_one_over "h" "eyJhI" "s"); reflexivity.
  - destruct (snd (decode_jwt_payload (token_of "h" "eyJhIjoxfQ" "s"))) eqn:E;
      [|reflexivity].
    vm_compute in E. discriminate.
Defined.

(** X12.  Four pad characters appended to a payload of alphabet
    characters whose length is a multiple of four change nothing: the
    base64 step gives what it gives for the payload as it came. *)
Theorem full_padding_is_harmless (p : string) :
  in_alphabet p = true -> py_len p mod 4 = 0 ->
  Base64.urlsafe_b64decode (add_padding p) = Base64.urlsafe_b64decode p.
Proof.
  intros A L. unfold add_padding. rewrite L.
  change (Z.to_nat (4 - 0)) with 4%nat.
  unfold Base64.urlsafe_b64decode.
  rewrite (in_alphabet_ascii p 4 A).
  pose proof (in_alphabet_ascii p 0 A) as I0.
  cbn [str_repeat] in I0. rewrite append_nil_r in I0. rewrite I0.
  rewrite (in_alphabet_len p A) in L.
  exact (excess_padding_is_ignored p (in_alphabet_In p A) L).
Qed.

Lemma full_padding_is_harmless_witness :
  Base64.urlsafe_b64decode (add_padding "eyJhIjoxMjN9") =
  Base64.urlsafe_b64decode "eyJhIjoxMjN9".
Proof.
  apply (full_padding_is_harmless "eyJhIjoxMjN9"); reflexivity.
Defined.

(** ** The expiry analysis *)

Import Analyzer.

(** X13.  The analysis catches nothing.  It raises exactly when the
    payload is truthy and is not a mapping (an attribute error), or
    [datetime.fromtimestamp] refuses a truthy [exp], or refuses a truthy
    [iat] after [exp] went through; no partial report comes back then. *)
Theorem analysis_raises_exactly_when (v : pyobj) (w : world) (e : exn) :
  fst (analyze_token_expiry v w) = Raise e <->
  truthy v = true /\ crash_cause v e.
Proof.
  destruct v as [| b | n | f | s | l | d].
  7:{ destruct d as [|kv d0]; [split; [discriminate|intros (Q & _); discriminate]|].
      set (d := kv :: d0).
      assert (truthy (PDict d) = true) as T by reflexivity.
      unfold analyze_token_expiry at 1. rewrite T. cbn [negb].
      unfold get. fold (timestamp "exp" d). fold (timestamp "iat" d).
      split.
      - destruct (truthy (timestamp "exp" d)) eqn:Te;
          [destruct (fromtimestamp (timestamp "exp" d)) as [i|ee] eqn:Fe|];
          (destruct (truthy (timestamp "iat" d)) eqn:Ti;
           [destruct (fromtimestamp (timestamp "iat" d)) as [j|ei] eqn:Fi|]);
          run_monad; rewrite ?Te, ?Fe, ?Ti, ?Fi; cbn [fst];
          intros Q; try discriminate Q; injection Q as <-;
          (split; [exact T|]);
          first [ apply exp_refused; assumption
                | apply iat_refused; [left; exact Te|exact Ti|exact Fi]
                | apply iat_refused; [right; eexists; exact Fe|exact Ti|exact Fi] ].
      - intros (_ & C). inversion C as [v N|d1 e1 Te Fe|d1 e1 U Ti Fi]; subst.
        + exfalso. exact (N d eq_refl).
        + run_monad. rewrite Te, Fe. reflexivity.
        + run_monad. rewrite Ti, Fi.
          destruct U as [U|(i & U)].
          * rewrite U. reflexivity.
          * rewrite U. destruct (truthy (timestamp "exp" d)); reflexivity. }
  all: unfold analyze_token_expiry, get;
    split;
    [ intros Q;
      match goal with
      | |- truthy ?x = true /\ _ =>
          destruct (truthy x) eqn:T; cbn [negb] in Q; run_monad;
          [|discriminate Q]
      end;
      cbv in Q; injection Q as <-; split; [reflexivity|];
      apply not_a_mapping; intros d; discriminate
    | intros (T & C); rewrite T; cbn [negb];
      inversion C; subst; reflexivity ].
Qed.

Lemma chars_app (a b : string) :
  list_ascii_of_string (a ++ b) =
  (list_ascii_of_string a ++ list_ascii_of_string b)%list.
Proof. induction a; simpl; congruence. Qed.

Lemma str_timedelta_has_colon td :
  In ":"%char (list_ascii_of_string (str_timedelta td)).
Proof.
  unfold str_timedelta. cbv zeta.
  rewrite chars_app. apply in_or_app. right.
  rewrite chars_app. apply in_or_app. left.
  rewrite chars_app. apply in_or_app. right.
  cbn [append list_ascii_of_string]. left. reflexivity.
Qed.

Lemma str_timedelta_not_expired td : str_timedelta td <> expired_text.
Proof.
  intros Q. pose proof (str_timedelta_has_colon td) as I. rewrite Q in I.
  vm_compute in I. intuition discriminate.
Qed.

(** X14.  The two verdicts of the report come from two comparisons that
    differ at equality.  For a mapping with a usable [iat] and an [exp]
    that denotes the instant [i], read against the clock at [now]: the
    report says [is_expired] exactly when [i < now], and writes the
    already-expired text for the remaining time exactly when [i <= now].
    At [i = now] the token is reported as not expired with no time
    left. *)
Theorem expiry_verdicts (d : dict) (w : world) (i : Z) :
  d <> [] ->
  truthy (timestamp "exp" d) = true ->
  fromtimestamp (timestamp "exp" d) = Ret i ->
  usable (timestamp "iat" d) ->
  let now := clock w (ticks w) in
  exists r,
    fst (analyze_token_expiry (PDict d) w) = Ret (PDict r) /\
    dict_get "is_expired" r = Some (PBool (i <? now)) /\
    (dict_get "time_until_expiry" r = Some (PStr expired_text) <-> i <= now).
Proof.
  intros N Te Fe U now.
  assert (truthy (PDict d) = true) as T by (destruct d; [contradiction|reflexivity]).
  unfold analyze_token_expiry. rewrite T. cbn [negb].
  unfold get. fold (timestamp "exp" d). fold (timestamp "iat" d).
  assert (Some (PStr (if i >? now then str_timedelta (i - now) else expired_text))
          = Some (PStr expired_text) <-> i <= now) as V.
  { destruct (Z.gtb_spec i now) as [G|G].
    - split; [|lia]. intros [= Q]. exfalso. exact (str_timedelta_not_expired _ Q).
    - split; [intros _; lia|reflexivity]. }
  destruct U as [Ti|(j & Fi)].
  - run_monad. rewrite Te, Fe, Ti. cbn [fst]. eexists. split; [reflexivity|].
    split; [reflexivity|]. exact V.
  - run_monad. rewrite Te, Fe, Fi.
    destruct (truthy (timestamp "iat" d)); cbn [fst]; eexists;
      (split; [reflexivity|]); (split; [reflexivity|]); exact V.
Qed.

Lemma expiry_verdicts_witness :
  let d := [("exp", PInt 1700000000); ("iat", PInt 1699990000)] in
  let w := Examples.world_of None Examples.endpoint_ok in
  exists r,
    fst (analyze_token_expiry (PDict d) w) = Ret (PDict r) /\
    dict_get "is_expired" r = Some (PBool false) /\
    dict_get "time_until_expiry" r = Some (PStr expired_text).
Proof.
  intros d w.
  destruct (expiry_verdicts d w 1700000000000000) as (r & A & B & C).
  - discriminate.
  - reflexivity.
  - reflexivity.
  - right. exists 1699990000000000. reflexivity.
  - exists r. split; [exact A|]. split; [exact B|].
    apply C. vm_compute. discriminate.
Defined.

(** X15.  Which fields the report has follows the truthiness of the two
    timestamps, not their presence: a mapping whose [exp] is 0, 0.0,
    false or null gets no expiry field, just as one without [exp], and
    likewise for [iat].  The clock is read once for each timestamp that
    is used, and nothing else of the world changes. *)
Theorem report_fields (d : dict) (w : world) :
  d <> [] ->
  usable (timestamp "exp" d) -> usable (timestamp "iat" d) ->
  let r := analyze_token_expiry (PDict d) w in
  let n (k : string) := if truthy (timestamp k d) then 1%nat else 0%nat in
  (exists fields,
     fst r = Ret (PDict fields) /\
     map fst fields =
       ((if truthy (timestamp "exp" d) then expiry_fields else []) ++
        (if truthy (timestamp "iat" d) then issue_fields else []))%list) /\
  untouched w (snd r) /\ log (snd r) = log w /\
  ticks (snd r) = (ticks w + n "exp" + n "iat")%nat.
Proof.
  intros N Ue Ui r n. subst r n.
  assert (truthy (PDict d) = true) as T by (destruct d; [contradiction|reflexivity]).
  unfold analyze_token_expiry. rewrite T. cbn [negb].
  unfold get. fold (timestamp "exp" d). fold (timestamp "iat" d).
  unfold untouched. run_monad.
  destruct (truthy (timestamp "exp" d)) eqn:Te;
    destruct (truthy (timestamp "iat" d)) eqn:Ti;
    try (destruct Ue as [Ue|(i & Ue)]; [congruence|]);
    try (destruct Ui as [Ui|(j & Ui)]; [congruence|]);
    rewrite ?Ue, ?Ui;
    cbn [fst snd db clock http sent executed log ticks];
    (split; [eexists; split; reflexivity|]);
    repeat split; lia.
Qed.

Lemma report_fields_witness :
  let d := [("sub", PStr "user"); ("exp", PInt 0); ("iat", PInt 1699990000)] in
  let r := analyze_token_expiry (PDict d) (Examples.world_of None Examples.endpoint_ok) in
  (exists fields,
     fst r = Ret (PDict fields) /\ map fst fields = issue_fields) /\
  ticks (snd r) = 1%nat.
Proof.
  intros d r.
  destruct (report_fields d (Examples.world_of None Examples.endpoint_ok))
    as ((fields & A & B) & _ & _ & C).
  - discriminate.
  - left. reflexivity.
  - right. exists 1699990000000000. reflexivity.
  - split; [|exact C]. exists fields. split; [exact A|exact B].
Defined.

(** ** [json.loads] reads back what [json.dumps] writes *)

Import Plain.


Lemma scan_once_object fuel' tail :
  Json.scan_once (S fuel') (String "{"%char tail) =
  match Json.skip_ws tail with
  | String "}" r => Some (PDict [], r)
  | s1 => members fuel' (S (String.length s1)) [] s1
  end.
Proof. reflexivity. Qed.








(** *** Integers *)









(** *** Values *)


























(** ** What the persist step writes, the scan reads back *)



Lemma is_token_plain_key (f : string) :
  In f ["accessToken"; "refreshToken"; "expiresAt"] -> plain_string f = true.
Proof.
  cbn [In]. intros [<-|[<-|[<-|[]]]]; reflexivity.
Qed.















(** ** The pass after a refresh *)



(** ** A 200 response with an unexpected body *)

Lemma update_row_non_mapping nd k c tx w :
  (forall d, nd <> PDict d) ->
  match fst (try_except (update_row nd k c tx) is_JSONDecodeError
               (fun _ => ret None) w) with
  | Ret (Some _) => False
  | _ => True
  end.
Proof.
  intros N. unfold update_row. run_monad.
  destruct (cell_truthy c); [|cbn [dict_get fst]; exact I].
  destruct (json_loads c) as [data|e];
    [|destruct (is_JSONDecodeError e); exact I].
  destruct data as [| | | | | |d]; try exact I.
  destruct (dict_get "accessToken" d) as [old|]; [|exact I].
  destruct (preview old) as [s|e]; [|destruct (is_JSONDecodeError e); exact I].
  destruct nd as [| | | | | |nd]; try exact I.
  exfalso. exact (N nd eq_refl).
Qed.

Lemma update_rows_non_mapping nd : forall rows tx count w,
  (forall d, nd <> PDict d) ->
  match fst (update_rows nd rows tx count w) with
  | Ret (tx', count') => tx' = tx /\ count' = count
  | Raise _ => True
  end.
Proof.
  induction rows as [|[k c] rows IH]; intros tx count w N.
  - cbn. auto.
  - cbn [update_rows]. unfold bind at 1.
    pose proof (update_row_non_mapping nd k c tx w N) as R.
    destruct (try_except (update_row nd k c tx) is_JSONDecodeError
                (fun _ => ret None) w) as [[[tx1|]|e] w1]; cbn [fst] in *.
    + contradiction.
    + apply IH. exact N.
    + exact I.
Qed.

Lemma update_token_in_db_non_mapping nd w :
  (forall d, nd <> PDict d) ->
  exists w', update_token_in_db nd w = (Ret false, w') /\ db w' = db w.
Proof.
  intros N. unfold update_token_in_db. unfold try_except, bind at 1, sqlite3_connect.
  destruct (db w) as [t|] eqn:H.
  - unfold bind at 1.
    pose proof (update_rows_non_mapping nd (select_auth_rows t) t 0 w N) as R.
    destruct (update_rows_general nd (select_auth_rows t) t 0 w)
      as (r & w1 & E & W1 & _).
    rewrite E in *. cbn [fst] in R.
    destruct r as [[tx' count']|e].
    + destruct R as (-> & ->). run_monad.
      eexists. split; [reflexivity|]. cbn [db]. reflexivity.
    + run_monad. eexists. split; [reflexivity|]. cbn [db]. congruence.
  - run_monad. eexists. split; [reflexivity|]. cbn [db]. exact H.
Qed.

(** X18.  A 200 response whose body is JSON but not a non-empty
    mapping never changes the store.  When the body is falsy (null,
    false, 0, an empty string, list or mapping) the pass ends on the
    refresh-failed line although the endpoint answered 200; when it is
    truthy (a number, a string, a non-empty list) the persist step
    fails on it and the pass ends on the refreshed-but-not-stored
    line.  In both cases the pass returns [False]. *)
Theorem unexpected_body_fails_pass (w : world) (text : string) (v : pyobj) :
  (forall req, http w req = HttpResponse 200 text) ->
  Json.loads text = Ret v ->
  (forall kv d, v <> PDict (kv :: d)) ->
  let r := refresh_if_needed w in
  sent (snd r) <> sent w ->
  fst r = Ret false /\ db (snd r) = db w /\
  last_logged (snd r) =
    Some (if truthy v then RefreshOkUpdateFailed else RefreshFailed).
Proof.
  intros Hh Hl Nm r. subst r.
  destruct (refresh_if_needed_trace w) as (r1 & w1 & E1 & F1 & _ & T).
  destruct F1 as (A1 & A2 & A3 & A4 & A5 & A6).
  assert (forall b w' ev,
            sent w' = sent w ->
            refresh_if_needed w = (Ret b, snd (logging ev w')) ->
            sent (snd (refresh_if_needed w)) = sent w) as Quiet.
  { intros b w' ev S ->. cbn [snd logging sent]. exact S. }
  destruct r1 as [ti|];
    [|intros Q; exfalso; apply Q; eapply Quiet; eauto].
  destruct (truthy (refresh_token ti));
    [|intros Q; exfalso; apply Q; eapply Quiet; eauto].
  destruct T as (b & w2 & E2 & (B1 & B2 & B3 & B4 & B5) & T).
  destruct b;
    [|intros Q; exfalso; apply Q; eapply Quiet; [|exact T]; congruence].
  destruct T as (w3 & E3 & V1 & V2 & V3 & Vt & V4 & V5 & T).
  cbv zeta in T. rewrite Hh in T. unfold refresh_result in T.
  change (200 =? 200) with true in T. cbv iota in T. rewrite Hl in T.
  intros _.
  destruct (truthy v) eqn:Tv.
  - destruct T as (u & w4 & E4 & T).
    assert (forall d, v <> PDict d) as N.
    { intros [|kv d] Q; [subst v; discriminate|exact (Nm kv d Q)]. }
    destruct (update_token_in_db_non_mapping v w3 N) as (w4' & U1 & U2).
    rewrite E4 in U1. injection U1 as -> <-.
    rewrite T. unfold last_logged, logging. cbn [fst snd db log hd_error].
    split; [reflexivity|]. split; [congruence|reflexivity].
  - rewrite T. unfold last_logged, logging. cbn [fst snd db log hd_error].
    split; [reflexivity|]. split; [exact V1|reflexivity].
Qed.

Lemma unexpected_body_fails_pass_witness :
  let w := Examples.world_of (Some Examples.one_record)
             (fun _ => HttpResponse 200 "[1]") in
  let r := refresh_if_needed w in
  fst r = Ret false /\ db (snd r) = Some Examples.one_record /\
  last_logged (snd r) = Some RefreshOkUpdateFailed.
Proof.
  intros w r.
  apply (unexpected_body_fails_pass w "[1]" (PList [PInt 1])).
  - intros req. reflexivity.
  - reflexivity.
  - discriminate.
  - vm_compute. discriminate.
Defined.
(** ** The outcomes of a pass *)

(** X19.  The last log line of a pass tells its result.  A pass ends on
    one of six lines.  On the still-fresh line it returns [True] having
    sent nothing and left the table alone; on the refreshed-and-stored
    line it returns [True] having sent one request; on each of the
    other four (no token information, no refresh token, refresh
    failed, refreshed but not stored) it returns [False] and the table
    is as it was. *)
Theorem pass_outcomes (w : world) :
  let r := refresh_if_needed w in
  exists ev,
    last_logged (snd r) = Some ev /\
    ((In ev [NoTokenInfo; NoRefreshToken] /\
      fst r = Ret false /\ db (snd r) = db w /\ sent (snd r) = sent w) \/
     (ev = StillFresh /\
      fst r = Ret true /\ db (snd r) = db w /\ sent (snd r) = sent w) \/
     (In ev [RefreshFailed; RefreshOkUpdateFailed] /\
      fst r = Ret false /\ db (snd r) = db w /\
      List.length (sent (snd r)) = S (List.length (sent w))) \/
     (ev = RefreshAndUpdateOk /\
      fst r = Ret true /\
      List.length (sent (snd r)) = S (List.length (sent w)))).
Proof.
  intros r. subst r.
  destruct (refresh_if_needed_trace w) as (r1 & w1 & E1 & F1 & _ & T).
  destruct F1 as (A1 & A2 & A3 & A4 & A5 & A6).
  unfold last_logged.
  destruct r1 as [ti|].
  2:{ rewrite T. cbn [fst snd logging db sent log hd_error].
      eexists. split; [reflexivity|]. left. cbn [In]. auto. }
  destruct (truthy (refresh_token ti)).
  2:{ rewrite T. cbn [fst snd logging db sent log hd_error].
      eexists. split; [reflexivity|]. left. cbn [In]. auto. }
  destruct T as (b & w2 & E2 & (B1 & B2 & B3 & B4 & B5) & T).
  destruct b.
  2:{ rewrite T. cbn [fst snd logging db sent log hd_error].
      eexists. split; [reflexivity|]. right. left.
      repeat split; congruence. }
  destruct T as (w3 & E3 & V1 & V2 & V3 & Vt & V4 & V5 & T).
  cbv zeta in T.
  destruct (truthy (refresh_result _)).
  - destruct T as (u & w4 & E4 & T).
    destruct (update_token_in_db_general
                (refresh_result (http w (refresh_request (refresh_token ti)))) w3)
      as (b' & w4' & E4' & _ & _ & S4 & D).
    rewrite E4 in E4'. injection E4' as <- <-.
    rewrite T. cbn [fst snd logging db sent log hd_error].
    eexists. split; [reflexivity|]. right. right.
    assert (List.length (sent w4) = S (List.length (sent w))) as Ls
      by (rewrite S4, V5; reflexivity).
    destruct u.
    + right. auto.
    + left. split; [cbn [In]; auto|]. split; [reflexivity|]. split; [|exact Ls].
      rewrite V1 in D. destruct (db w) as [t|].
      * destruct D as (t' & D1 & _ & D2 & _). rewrite D1, D2; reflexivity.
      * destruct D as (D1 & _). exact D1.
  - rewrite T. cbn [fst snd logging db sent log hd_error].
    eexists. split; [reflexivity|]. right. right. left.
    split; [cbn [In]; auto|]. split; [reflexivity|]. split; [exact V1|].
    rewrite V5. reflexivity.
Qed.
